(** * Floating icons: the frame integrator and the pointer-drag controller

    A shallow embedding of [script.js].  Every function of the script is
    written once, over an abstract type of JavaScript numbers, and is then
    run at two instances: IEEE-754 binary64 (what the browser computes) and
    exact rationals (where the laws of an ordered field are available).
    Properties that only depend on the control flow are proved for every
    number type, binary64 included; properties that need the order of the
    numbers are proved for rationals when rounding does not affect them. *)

From Stdlib Require Import QArith Qabs Lqa PrimFloat Uint63.
From stdpp Require Import base option list.

#[local] Set Warnings "-inexact-float".

(** ** JavaScript numbers *)

(** The operations the script applies to numbers.  [lit] embeds a numeric
    literal of the source text, [truthy] is JavaScript's ToBoolean on a
    number ([0], [-0] and [NaN] are falsy). *)
Class Number (N : Type) := {
  lit : Q -> N;
  nadd : N -> N -> N;
  nsub : N -> N -> N;
  nmul : N -> N -> N;
  ndiv : N -> N -> N;
  nneg : N -> N;
  nlt : N -> N -> bool;
  truthy : N -> bool
}.
Arguments lit {N _} q%_Q.

Declare Scope js_scope.
Delimit Scope js_scope with js.
Notation "a + b" := (nadd a b) : js_scope.
Notation "a - b" := (nsub a b) : js_scope.
Notation "a * b" := (nmul a b) : js_scope.
Notation "a / b" := (ndiv a b) : js_scope.
Notation "- a" := (nneg a) : js_scope.
Notation "a <? b" := (nlt a b) : js_scope.
Notation "a >? b" := (nlt b a) : js_scope.

(** Exact rational arithmetic, without rounding.  It serves for
    counterexamples that are easy to retrace by hand and for properties
    that rounding does not affect; what holds in every number type is
    proved for every number type. *)
#[export] Instance Q_Number : Number Q := {
  lit q := q;
  nadd := Qplus;
  nsub := Qminus;
  nmul := Qmult;
  ndiv := Qdiv;
  nneg := Qopp;
  nlt := QMicromega.Qlt_bool;
  truthy q := negb (Qeq_bool q 0)
}.

(** IEEE-754 binary64.  A decimal literal [n/d] denotes the double nearest
    to it, which is what the correctly rounded quotient of the two (small,
    exactly representable) integers returns. *)
Definition float_of_Z (z : Z) : float :=
  match z with
  | Z0 => PrimFloat.zero
  | Zpos _ => PrimFloat.of_uint63 (Uint63.of_Z z)
  | Zneg p => PrimFloat.opp (PrimFloat.of_uint63 (Uint63.of_Z (Zpos p)))
  end.

Definition float_lit (q : Q) : float :=
  PrimFloat.div (float_of_Z (Qnum q)) (float_of_Z (Zpos (Qden q))).

#[export] Instance float_Number : Number float := {
  lit := float_lit;
  nadd := PrimFloat.add;
  nsub := PrimFloat.sub;
  nmul := PrimFloat.mul;
  ndiv := PrimFloat.div;
  nneg := PrimFloat.opp;
  nlt := PrimFloat.ltb;
  truthy f := negb (PrimFloat.is_zero f || PrimFloat.is_nan f)
}.

(** ** Completions of an event handler *)

(** A handler either returns normally or throws.  The only fault the
    script could raise is a [TypeError] from reading a property of a
    missing object. *)
Inductive completion (A : Type) : Type :=
  | Normal (a : A)
  | TypeError.
Arguments Normal {A} a.
Arguments TypeError {A}.

Definition bind {A B} (c : completion A) (k : A -> completion B)
  : completion B :=
  match c with
  | Normal a => k a
  | TypeError => TypeError
  end.

Section Script.
Context {N : Type} {num : Number N}.
#[local] Open Scope js_scope.

(** ** Data model *)

(** An object [{ x, y }]. *)
Record Pos := { pos_x : N; pos_y : N }.

(** The icon element, reduced to what the script writes to it: the string
    [translate(${x}px, ${y}px)] assigned to [style.transform] is kept as
    its two numbers. *)
Record Element := { style_transform : Pos }.

(** The object literal built in [init]. *)
Record Body := {
  el : Element;
  x : N;
  y : N;
  vx : N;
  vy : N;
  width : N;
  height : N;
  dragging : bool;
  dragOffsetX : N;
  dragOffsetY : N;
  lastPointerPos : Pos;
  vxPointer : N;
  vyPointer : N
}.

(** Field assignments [body.f = v]. *)
Definition set_el (b : Body) (v : Element) : Body :=
  {| el := v; x := x b; y := y b; vx := vx b; vy := vy b;
     width := width b; height := height b; dragging := dragging b;
     dragOffsetX := dragOffsetX b; dragOffsetY := dragOffsetY b;
     lastPointerPos := lastPointerPos b;
     vxPointer := vxPointer b; vyPointer := vyPointer b |}.
Definition set_x (b : Body) (v : N) : Body :=
  {| el := el b; x := v; y := y b; vx := vx b; vy := vy b;
     width := width b; height := height b; dragging := dragging b;
     dragOffsetX := dragOffsetX b; dragOffsetY := dragOffsetY b;
     lastPointerPos := lastPointerPos b;
     vxPointer := vxPointer b; vyPointer := vyPointer b |}.
Definition set_y (b : Body) (v : N) : Body :=
  {| el := el b; x := x b; y := v; vx := vx b; vy := vy b;
     width := width b; height := height b; dragging := dragging b;
     dragOffsetX := dragOffsetX b; dragOffsetY := dragOffsetY b;
     lastPointerPos := lastPointerPos b;
     vxPointer := vxPointer b; vyPointer := vyPointer b |}.
Definition set_vx (b : Body) (v : N) : Body :=
  {| el := el b; x := x b; y := y b; vx := v; vy := vy b;
     width := width b; height := height b; dragging := dragging b;
     dragOffsetX := dragOffsetX b; dragOffsetY := dragOffsetY b;
     lastPointerPos := lastPointerPos b;
     vxPointer := vxPointer b; vyPointer := vyPointer b |}.
Definition set_vy (b : Body) (v : N) : Body :=
  {| el := el b; x := x b; y := y b; vx := vx b; vy := v;
     width := width b; height := height b; dragging := dragging b;
     dragOffsetX := dragOffsetX b; dragOffsetY := dragOffsetY b;
     lastPointerPos := lastPointerPos b;
     vxPointer := vxPointer b; vyPointer := vyPointer b |}.
Definition set_dragging (b : Body) (v : bool) : Body :=
  {| el := el b; x := x b; y := y b; vx := vx b; vy := vy b;
     width := width b; height := height b; dragging := v;
     dragOffsetX := dragOffsetX b; dragOffsetY := dragOffsetY b;
     lastPointerPos := lastPointerPos b;
     vxPointer := vxPointer b; vyPointer := vyPointer b |}.
Definition set_dragOffsetX (b : Body) (v : N) : Body :=
  {| el := el b; x := x b; y := y b; vx := vx b; vy := vy b;
     width := width b; height := height b; dragging := dragging b;
     dragOffsetX := v; dragOffsetY := dragOffsetY b;
     lastPointerPos := lastPointerPos b;
     vxPointer := vxPointer b; vyPointer := vyPointer b |}.
Definition set_dragOffsetY (b : Body) (v : N) : Body :=
  {| el := el b; x := x b; y := y b; vx := vx b; vy := vy b;
     width := width b; height := height b; dragging := dragging b;
     dragOffsetX := dragOffsetX b; dragOffsetY := v;
     lastPointerPos := lastPointerPos b;
     vxPointer := vxPointer b; vyPointer := vyPointer b |}.
Definition set_lastPointerPos (b : Body) (v : Pos) : Body :=
  {| el := el b; x := x b; y := y b; vx := vx b; vy := vy b;
     width := width b; height := height b; dragging := dragging b;
     dragOffsetX := dragOffsetX b; dragOffsetY := dragOffsetY b;
     lastPointerPos := v;
     vxPointer := vxPointer b; vyPointer := vyPointer b |}.
Definition set_vxPointer (b : Body) (v : N) : Body :=
  {| el := el b; x := x b; y := y b; vx := vx b; vy := vy b;
     width := width b; height := height b; dragging := dragging b;
     dragOffsetX := dragOffsetX b; dragOffsetY := dragOffsetY b;
     lastPointerPos := lastPointerPos b;
     vxPointer := v; vyPointer := vyPointer b |}.
Definition set_vyPointer (b : Body) (v : N) : Body :=
  {| el := el b; x := x b; y := y b; vx := vx b; vy := vy b;
     width := width b; height := height b; dragging := dragging b;
     dragOffsetX := dragOffsetX b; dragOffsetY := dragOffsetY b;
     lastPointerPos := lastPointerPos b;
     vxPointer := vxPointer b; vyPointer := v |}.

(** A mouse or touch event, reduced to the fields [getPointerPos] reads.
    A mouse event has no [touches] (the empty list stands for the missing
    property as well as for a zero length). *)
Record Event := { touches : list Pos; clientX : N; clientY : N }.

(** The module-level variables.  [bodies] is the array of body objects; the
    closures of [init] and the variable [activeBody] refer to those same
    objects, so a reference to a body is its index in the array.
    [listening] tells whether [doDrag] and [endDrag] are registered on the
    document: the four listeners are always added and removed together, and
    adding a listener that is already registered changes nothing. *)
Record State := {
  bodies : list Body;
  lastTimestamp : option N;
  activeBody : option nat;
  listening : bool
}.

Definition set_bodies (s : State) (v : list Body) : State :=
  {| bodies := v; lastTimestamp := lastTimestamp s;
     activeBody := activeBody s; listening := listening s |}.
Definition set_lastTimestamp (s : State) (v : option N) : State :=
  {| bodies := bodies s; lastTimestamp := v;
     activeBody := activeBody s; listening := listening s |}.
Definition set_activeBody (s : State) (v : option nat) : State :=
  {| bodies := bodies s; lastTimestamp := lastTimestamp s;
     activeBody := v; listening := listening s |}.
Definition set_listening (s : State) (v : bool) : State :=
  {| bodies := bodies s; lastTimestamp := lastTimestamp s;
     activeBody := activeBody s; listening := v |}.

(** ** Constants *)

Definition gravity : N := lit 0.4.
Definition bounceFactor : N := lit 0.6.
Definition friction : N := lit 0.98.

(** ** [init] *)

(** The body made for one icon; [r1], [r2], [r3] are the three values
    [Math.random()] returns, in the order of the calls. *)
Definition initBody (innerWidth : N) (r : N * N * N) : Body :=
  let '(r1, r2, r3) := r in
  let rect_width := lit 80 in
  let rect_height := lit 80 in
  let startX := r1 * (innerWidth - rect_width) in
  let startY := - r2 * lit 200 - rect_height in
  {| el := {| style_transform := {| pos_x := startX; pos_y := startY |} |};
     x := startX;
     y := startY;
     vx := (r3 - lit 0.5) * lit 1.0;
     vy := lit 0;
     width := rect_width;
     height := rect_height;
     dragging := false;
     dragOffsetX := lit 0;
     dragOffsetY := lit 0;
     lastPointerPos := {| pos_x := lit 0; pos_y := lit 0 |};
     vxPointer := lit 0;
     vyPointer := lit 0 |}.

(** The state once [init] has run on the icons of the page. *)
Definition init (innerWidth : N) (randoms : list (N * N * N)) : State :=
  {| bodies := initBody innerWidth <$> randoms;
     lastTimestamp := None;
     activeBody := None;
     listening := false |}.

(** ** The pointer-drag controller *)

Definition getPointerPos (e : Event) : Pos :=
  match touches e with
  | t :: _ => {| pos_x := pos_x t; pos_y := pos_y t |}
  | [] => {| pos_x := clientX e; pos_y := clientY e |}
  end.

(** Reading [bodies[i]] through a reference. *)
Definition deref (s : State) (i : nat) : completion Body :=
  match bodies s !! i with
  | Some b => Normal b
  | None => TypeError
  end.

(** Writing a mutated body object back. *)
Definition store (s : State) (i : nat) (b : Body) : State :=
  set_bodies s (<[i := b]> (bodies s)).

(** [startDrag(e, body)], [body] being the body of icon [i]. *)
Definition startDrag (e : Event) (i : nat) (s : State) : completion State :=
  bind (deref s i) (fun body =>
    let body := set_dragging body true in
    let pos := getPointerPos e in
    let body := set_dragOffsetX body (pos_x pos - x body) in
    let body := set_dragOffsetY body (pos_y pos - y body) in
    let body := set_vx body (lit 0) in
    let body := set_vy body (lit 0) in
    let body := set_vxPointer body (lit 0) in
    let body := set_vyPointer body (lit 0) in
    let body := set_lastPointerPos body pos in
    let s := store s i body in
    let s := set_listening s true in
    Normal (set_activeBody s (Some i))).

Definition doDrag (e : Event) (s : State) : completion State :=
  match activeBody s with
  | None => Normal s
  | Some i =>
    bind (deref s i) (fun body =>
      let pos := getPointerPos e in
      if dragging body then
        let body := set_x body (pos_x pos - dragOffsetX body) in
        let body := set_y body (pos_y pos - dragOffsetY body) in
        let body :=
          set_vxPointer body (pos_x pos - pos_x (lastPointerPos body)) in
        let body :=
          set_vyPointer body (pos_y pos - pos_y (lastPointerPos body)) in
        let body := set_lastPointerPos body pos in
        Normal (store s i body)
      else Normal s)
  end.

Definition endDrag (e : Event) (s : State) : completion State :=
  match activeBody s with
  | None => Normal s
  | Some i =>
    bind (deref s i) (fun body =>
      if dragging body then
        let body := set_dragging body false in
        let body := set_vx body (vxPointer body) in
        let body := set_vy body (vyPointer body) in
        let s := store s i body in
        let s := set_activeBody s None in
        Normal (set_listening s false)
      else Normal s)
  end.

(** ** The integrator *)

(** The blocks of the loop body of [step], in the order of the source. *)
Definition integrate (dt : N) (body : Body) : Body :=
  let body := set_vy body (vy body + gravity * dt) in
  let body := set_x body (x body + vx body * dt) in
  set_y body (y body + vy body * dt).

Definition collideX (maxX : N) (body : Body) : Body :=
  if x body <? lit 0 then
    let body := set_x body (lit 0) in
    set_vx body (- vx body * bounceFactor)
  else if x body + width body >? maxX then
    let body := set_x body (maxX - width body) in
    set_vx body (- vx body * bounceFactor)
  else body.

Definition collideTop (body : Body) : Body :=
  if y body <? lit 0 then
    let body := set_y body (lit 0) in
    set_vy body (- vy body * bounceFactor)
  else body.

Definition collideBottom (maxY : N) (body : Body) : Body :=
  if y body + height body >? maxY then
    let body := set_y body (maxY - height body) in
    let body := set_vy body (- vy body * bounceFactor) in
    set_vx body (vx body * friction)
  else body.

Definition applyTransform (body : Body) : Body :=
  set_el body {| style_transform := {| pos_x := x body; pos_y := y body |} |}.

(** The callback passed to [bodies.forEach]. *)
Definition stepBody (dt maxX maxY : N) (body : Body) : Body :=
  let body :=
    if negb (dragging body) then
      collideBottom maxY (collideTop (collideX maxX (integrate dt body)))
    else body in
  applyTransform body.

(** The baseline [lastTimestamp] holds once the first statement of [step]
    has run. *)
Definition baseline (timestamp : N) (last : option N) : N :=
  match last with
  | Some t => if truthy t then t else timestamp
  | None => timestamp
  end.

Definition frame_dt (timestamp : N) (last : option N) : N :=
  (timestamp - baseline timestamp last) / lit 16.7.

(** [step(timestamp)], with [window.innerWidth] and [window.innerHeight] as
    read during the call. *)
Definition step (timestamp innerWidth innerHeight : N) (s : State) : State :=
  let dt := frame_dt timestamp (lastTimestamp s) in
  let s := set_lastTimestamp s (Some timestamp) in
  let maxX := innerWidth in
  let maxY := innerHeight in
  set_bodies s (stepBody dt maxX maxY <$> bodies s).

(** ** The event loop *)

(** [e.preventDefault()] acts on the browser's default gesture, not on the
    variables of the script, and the call [requestAnimationFrame(step)]
    that ends [step] only makes the browser deliver the next frame; the
    frames are inputs below. *)

(** What the browser delivers: a mouse-down or touch-start on icon [i], a
    move or an end of a pointer anywhere on the document, an animation
    frame. *)
Inductive Input :=
  | PointerDown (i : nat) (e : Event)
  | PointerMove (e : Event)
  | PointerUp (e : Event)
  | AnimationFrame (timestamp innerWidth innerHeight : N).

Definition dispatch (s : State) (inp : Input) : completion State :=
  match inp with
  | PointerDown i e => startDrag e i s
  | PointerMove e => if listening s then doDrag e s else Normal s
  | PointerUp e => if listening s then endDrag e s else Normal s
  | AnimationFrame t w h => Normal (step t w h s)
  end.

Fixpoint run (s : State) (inps : list Input) : completion State :=
  match inps with
  | [] => Normal s
  | inp :: rest => bind (dispatch s inp) (fun s => run s rest)
  end.

(** The pointer position a run of inputs leaves in [lastPointerPos] while a
    drag is active: that of the last move, or [p] when there was none. *)
Definition lastPointer (p : Pos) (inps : list Input) : Pos :=
  fold_left
    (fun p inp =>
       match inp with
       | PointerMove e => getPointerPos e
       | _ => p
       end)
    inps p.

Definition is_frame (inp : Input) : bool :=
  match inp with
  | AnimationFrame _ _ _ => true
  | _ => false
  end.

Definition is_move_or_frame (inp : Input) : bool :=
  match inp with
  | PointerMove _ | AnimationFrame _ _ _ => true
  | _ => false
  end.

(** ** Inputs used in the examples *)

(** A mouse event at [(cx, cy)]. *)
Definition mouse (cx cy : N) : Event :=
  {| touches := []; clientX := cx; clientY := cy |}.

(** A touch event with active touch points [ts]; its own [clientX] and
    [clientY] are never read when [ts] is not empty. *)
Definition touch (ts : list Pos) : Event :=
  {| touches := ts; clientX := lit 0; clientY := lit 0 |}.

(** Two icons in a viewport of 800 by 600, after [init] (with the random
    draws 0.25, 0.5, 0.5 and 0.75, 0.5, 0.5) and after the first animation
    frame, delivered at 1000 ms. *)
Definition two_icons_init : State :=
  init (lit 800) [(lit 0.25, lit 0.5, lit 0.5); (lit 0.75, lit 0.5, lit 0.5)].

Definition two_icons : State :=
  step (lit 1000) (lit 800) (lit 600) two_icons_init.

(** The state a run of inputs ends in. *)
Definition after (s : State) (inps : list Input) : State :=
  match run s inps with
  | Normal s' => s'
  | TypeError => s
  end.

(** The first icon, grabbed at (200, 40) and moved by (50, 50). *)
Definition dragged_icon : State :=
  after two_icons
    [PointerDown 0 (mouse (lit 200) (lit 40));
     PointerMove (mouse (lit 250) (lit 90))].

(** The first icon, grabbed at (200, 40) and pulled out of the viewport, to
    the left of it and below it. *)
Definition dragged_outside : State :=
  after two_icons
    [PointerDown 0 (mouse (lit 200) (lit 40));
     PointerMove (mouse (lit (-100)) (lit 900))].

(** Two fingers: the first lands on the first icon, the second on the
    second icon while the first is still down; then one is lifted. *)
Definition finger1 : Pos := {| pos_x := lit 200; pos_y := lit 40 |}.
Definition finger2 : Pos := {| pos_x := lit 560; pos_y := lit 40 |}.
Definition two_fingers_down : list Input :=
  [PointerDown 0 (touch [finger1]); PointerDown 1 (touch [finger1; finger2])].
Definition one_finger_up : list Input := [PointerUp (touch [finger1])].

(** A body of 80 by 80 at [(x0, y0)] with velocity [(vx0, vy0)]. *)
Definition body_at (x0 y0 vx0 vy0 : N) : Body :=
  {| el := {| style_transform := {| pos_x := x0; pos_y := y0 |} |};
     x := x0; y := y0; vx := vx0; vy := vy0;
     width := lit 80; height := lit 80;
     dragging := false;
     dragOffsetX := lit 0; dragOffsetY := lit 0;
     lastPointerPos := {| pos_x := lit 0; pos_y := lit 0 |};
     vxPointer := lit 0; vyPointer := lit 0 |}.

(** [n] frames of the integrator on one body, with the same [dt] and the
    same viewport. *)
Definition frames_of (dt maxX maxY : N) (n : nat) (body : Body) : Body :=
  Nat.iter n (stepBody dt maxX maxY) body.

Definition no_pointer_down (inp : Input) : bool :=
  match inp with
  | PointerDown _ _ => false
  | _ => true
  end.

(** ** Well-formed states *)

(** A reference held by [activeBody] is a body of the array. *)
Definition wf (s : State) : Prop :=
  match activeBody s with
  | Some i => (i < length (bodies s))%nat
  | None => True
  end.

(** An input the page can deliver: a pointer-down comes from the listener
    of an existing icon. *)
Definition deliverable (s : State) (inp : Input) : Prop :=
  match inp with
  | PointerDown i _ => (i < length (bodies s))%nat
  | _ => True
  end.

(** Body [i] is under pointer control, with [p] the last pointer sample and
    [(vxp, vyp)] the pointer velocity. *)
Definition drag_active (i : nat) (p : Pos) (vxp vyp : N) (s : State) : Prop :=
  activeBody s = Some i /\ listening s = true /\
  exists b, bodies s !! i = Some b /\ dragging b = true /\
            lastPointerPos b = p /\ vxPointer b = vxp /\ vyPointer b = vyp.

(** ** States the page can reach *)

(** The document listeners are registered exactly while a body is active,
    and the active body is being dragged. *)
Definition drag_consistent (s : State) : Prop :=
  match activeBody s with
  | Some i => listening s = true /\
              exists b, bodies s !! i = Some b /\ dragging b = true
  | None => listening s = false
  end.

(** The body whose handler an input runs: the icon of a pointer-down, the
    active body for a move or a release that reaches a listener. *)
Definition target (s : State) (inp : Input) : option nat :=
  match inp with
  | PointerDown i _ => Some i
  | PointerMove _ | PointerUp _ => if listening s then activeBody s else None
  | AnimationFrame _ _ _ => None
  end.

(** Inputs of a single pointer: no pointer-down arrives while the pointer
    is down ([down] tells whether it is). *)
Fixpoint single_pointer (down : bool) (inps : list Input) : bool :=
  match inps with
  | [] => true
  | PointerDown _ _ :: rest => negb down && single_pointer true rest
  | PointerUp _ :: rest => single_pointer false rest
  | _ :: rest => single_pointer down rest
  end.

(** Body [i] is under pointer control with the drag offset [(ox, oy)]. *)
Definition drag_held (i : nat) (ox oy : N) (s : State) : Prop :=
  activeBody s = Some i /\ listening s = true /\
  exists b, bodies s !! i = Some b /\ dragging b = true /\
            dragOffsetX b = ox /\ dragOffsetY b = oy.

(** Only the active body is being dragged. *)
Definition one_drag (s : State) : Prop :=
  forall i b, bodies s !! i = Some b -> dragging b = true ->
              activeBody s = Some i.

(** Whether a body is active. *)
Definition is_down (s : State) : bool :=
  match activeBody s with
  | Some _ => true
  | None => false
  end.

(** Body [i] is under pointer control, has not been moved since the
    pointer-down, and is at [(x0, y0)]. *)
Definition held_at (i : nat) (x0 y0 : N) (s : State) : Prop :=
  activeBody s = Some i /\ listening s = true /\
  exists b, bodies s !! i = Some b /\ dragging b = true /\
            vxPointer b = lit 0 /\ vyPointer b = lit 0 /\
            x b = x0 /\ y b = y0.

(** Whether one of the four collision tests of [step] holds for a body. *)
Definition hits_edge (maxX maxY : N) (body : Body) : bool :=
  (x body <? lit 0) || (x body + width body >? maxX)
  || (y body <? lit 0) || (y body + height body >? maxY).

(** A press on the first icon, a move, a frame and the release. *)
Definition press_move_release : list Input :=
  [PointerDown 0 (mouse (lit 200) (lit 40));
   PointerMove (mouse (lit 250) (lit 90));
   AnimationFrame (lit 1016.7) (lit 800) (lit 600);
   PointerUp (mouse (lit 250) (lit 90))].

(** A finger lands on the first icon, the viewport shrinks to a width of
    200 while the finger is down (the frame in between skips the held
    body), and the finger is lifted without having moved. *)
Definition hold_through_resize : list Input :=
  [PointerDown 0 (touch [finger1]);
   AnimationFrame (lit 1016.7) (lit 200) (lit 600);
   PointerUp (touch [])].

End Script.

Arguments Pos N : clear implicits.
Arguments Element N : clear implicits.
Arguments Body N : clear implicits.
Arguments Event N : clear implicits.
Arguments State N : clear implicits.
Arguments Input N : clear implicits.
Arguments two_icons_init N {num}.
Arguments two_icons N {num}.
Arguments dragged_icon N {num}.
Arguments dragged_outside N {num}.
Arguments two_fingers_down N {num}.
Arguments one_finger_up N {num}.
Arguments press_move_release N {num}.
Arguments hold_through_resize N {num}.

(** ** Binary64 inputs used in the examples *)

(** A pointer abscissa one unit in the last place above 964. *)
Definition just_past_964 : float := 0x1.e200000000001p+9%float.

(** The first icon, in a viewport 1024 wide, is grabbed at (200, 40),
    carried to the pointer position ([just_past_964], 140), held there for
    one more move event and released: it rests at
    x = 944.00000000000011, with velocity (0, 0). *)
Definition parked_near_right_edge : State float :=
  after (two_icons float)
    [PointerDown 0 (mouse 200%float 40%float);
     PointerMove (mouse just_past_964 140%float);
     PointerMove (mouse just_past_964 140%float);
     PointerUp (mouse just_past_964 140%float)].

(** * Properties that hold for every number type *)

Section Control.
Context {N : Type} {num : Number N}.
#[local] Open Scope js_scope.

(** ** Basic facts *)

Lemma step_lookup t w h (s : State N) i :
  bodies (step t w h s) !! i
  = stepBody (frame_dt t (lastTimestamp s)) w h <$> bodies s !! i.
Proof. unfold step; simpl. apply list_lookup_fmap. Qed.

Lemma step_activeBody t w h (s : State N) : activeBody (step t w h s) = activeBody s.
Proof. reflexivity. Qed.

Lemma step_listening t w h (s : State N) : listening (step t w h s) = listening s.
Proof. reflexivity. Qed.

Lemma step_length t w h (s : State N) : length (bodies (step t w h s)) = length (bodies s).
Proof. unfold step; simpl. apply length_fmap. Qed.

Lemma stepBody_dragging dt w h (b : Body N) :
  dragging b = true -> stepBody dt w h b = applyTransform b.
Proof. unfold stepBody. intros ->. reflexivity. Qed.

Lemma collideX_dragging w (b : Body N) : dragging (collideX w b) = dragging b.
Proof. unfold collideX. repeat case_match; reflexivity. Qed.

Lemma collideTop_dragging (b : Body N) : dragging (collideTop b) = dragging b.
Proof. unfold collideTop. case_match; reflexivity. Qed.

Lemma collideBottom_dragging h (b : Body N) : dragging (collideBottom h b) = dragging b.
Proof. unfold collideBottom. case_match; reflexivity. Qed.

Lemma stepBody_keeps_dragging dt w h (b : Body N) :
  dragging (stepBody dt w h b) = dragging b.
Proof.
  unfold stepBody. destruct (dragging b) eqn:E; simpl; [exact E|].
  rewrite collideBottom_dragging, collideTop_dragging, collideX_dragging.
  exact E.
Qed.

Lemma collideX_size w (b : Body N) :
  width (collideX w b) = width b /\ height (collideX w b) = height b.
Proof. unfold collideX. repeat case_match; split; reflexivity. Qed.

Lemma stepBody_size dt w h (b : Body N) :
  width (stepBody dt w h b) = width b /\ height (stepBody dt w h b) = height b.
Proof.
  unfold stepBody, collideBottom, collideTop, collideX, integrate.
  repeat case_match; split; reflexivity.
Qed.

Lemma store_lookup_eq (s : State N) i b :
  (i < length (bodies s))%nat -> bodies (store s i b) !! i = Some b.
Proof. intros Hi. unfold store; simpl. by apply list_lookup_insert_eq. Qed.

Lemma store_lookup_ne (s : State N) i j b :
  i <> j -> bodies (store s i b) !! j = bodies s !! j.
Proof. intros Hij. unfold store; simpl. by apply list_lookup_insert_ne. Qed.

Lemma deref_Some (s : State N) i b : bodies s !! i = Some b -> deref s i = Normal b.
Proof. unfold deref. intros ->. reflexivity. Qed.


Lemma run_cons (s : State N) inp l :
  run s (inp :: l) = bind (dispatch s inp) (fun s' => run s' l).
Proof. reflexivity. Qed.

Lemma run_app (s : State N) l1 l2 :
  run s (l1 ++ l2) = bind (run s l1) (fun s' => run s' l2).
Proof.
  revert s. induction l1 as [|inp l1 IH]; intros s; simpl; [reflexivity|].
  destruct (dispatch s inp) as [s'|]; simpl; [apply IH | reflexivity].
Qed.

(** ** The drag session *)

Lemma startDrag_active (s : State N) i b e :
  bodies s !! i = Some b ->
  exists s', startDrag e i s = Normal s' /\
             drag_active i (getPointerPos e) (lit 0) (lit 0) s'.
Proof.
  intros Hb. unfold startDrag. rewrite (deref_Some _ _ _ Hb). simpl.
  eexists; split; [reflexivity|].
  repeat split. eexists; split.
  - simpl. apply list_lookup_insert_eq. by eapply lookup_lt_Some.
  - repeat split.
Qed.

Lemma startDrag_other (s s' : State N) i j e :
  startDrag e i s = Normal s' -> i <> j -> bodies s' !! j = bodies s !! j.
Proof.
  unfold startDrag, deref. destruct (bodies s !! i) as [b|]; simpl; [|done].
  intros [= <-] Hij. simpl. by apply list_lookup_insert_ne.
Qed.

Lemma frame_active (s : State N) i p vxp vyp t w h :
  drag_active i p vxp vyp s -> drag_active i p vxp vyp (step t w h s).
Proof.
  intros (Ha & Hl & b & Hb & Hd & Hp & Hvx & Hvy).
  repeat split; [exact Ha | exact Hl |].
  exists (applyTransform b). rewrite step_lookup, Hb. simpl.
  rewrite (stepBody_dragging _ _ _ _ Hd). by repeat split.
Qed.

Lemma move_active (s : State N) i p vxp vyp e :
  drag_active i p vxp vyp s ->
  exists s', dispatch s (PointerMove e) = Normal s' /\
    drag_active i (getPointerPos e)
      (pos_x (getPointerPos e) - pos_x p)
      (pos_y (getPointerPos e) - pos_y p) s'.
Proof.
  intros (Ha & Hl & b & Hb & Hd & Hp & Hvx & Hvy).
  simpl. rewrite Hl. unfold doDrag. rewrite Ha, (deref_Some _ _ _ Hb). simpl.
  rewrite Hd. eexists; split; [reflexivity|].
  repeat split; [exact Ha | exact Hl |].
  eexists; split.
  - simpl. apply list_lookup_insert_eq. by eapply lookup_lt_Some.
  - simpl. rewrite Hp. by repeat split.
Qed.

Lemma release_active (s : State N) i p vxp vyp e :
  drag_active i p vxp vyp s ->
  exists s' b', dispatch s (PointerUp e) = Normal s' /\
    bodies s' !! i = Some b' /\ dragging b' = false /\
    vx b' = vxp /\ vy b' = vyp /\
    activeBody s' = None /\ listening s' = false.
Proof.
  intros (Ha & Hl & b & Hb & Hd & Hp & Hvx & Hvy).
  simpl. rewrite Hl. unfold endDrag. rewrite Ha, (deref_Some _ _ _ Hb). simpl.
  rewrite Hd. do 2 eexists; split; [reflexivity|]. split.
  - simpl. apply list_lookup_insert_eq. by eapply lookup_lt_Some.
  - simpl. by repeat split.
Qed.

Lemma frames_active (s : State N) i p vxp vyp frames :
  forallb is_frame frames = true ->
  drag_active i p vxp vyp s ->
  exists s', run s frames = Normal s' /\ drag_active i p vxp vyp s'.
Proof.
  revert s. induction frames as [|inp frames IH]; intros s Hf Hs; simpl.
  - by exists s.
  - simpl in Hf. apply andb_true_iff in Hf as [Hi Hf].
    destruct inp as [| | |t w h]; try discriminate. simpl.
    apply IH; [exact Hf | by apply frame_active].
Qed.

Lemma moves_active (s : State N) i p vxp vyp mid :
  forallb is_move_or_frame mid = true ->
  drag_active i p vxp vyp s ->
  exists s' vxp' vyp',
    run s mid = Normal s' /\ drag_active i (lastPointer p mid) vxp' vyp' s'.
Proof.
  revert s p vxp vyp.
  induction mid as [|inp mid IH]; intros s p vxp vyp Hf Hs.
  - by exists s, vxp, vyp.
  - simpl in Hf. apply andb_true_iff in Hf as [Hi Hf].
    destruct inp as [|e| |t w h]; try discriminate.
    + destruct (move_active _ _ _ _ _ e Hs) as (s1 & Hrun & Hs1).
      rewrite run_cons, Hrun. cbn [bind]. by eapply IH.
    + simpl. apply (IH _ p vxp vyp Hf). by apply frame_active.
Qed.

(** ** No handler throws *)

(** Every deliverable input is handled without a fault, and the state the
    handler leaves is well formed again. *)
Lemma dispatch_never_throws (s : State N) inp :
  wf s -> deliverable s inp ->
  exists s', dispatch s inp = Normal s' /\ wf s' /\
             length (bodies s') = length (bodies s).
Proof.
  intros Hwf Hin. destruct inp as [i e|e|e|t w h]; simpl in *.
  - destruct (lookup_lt_is_Some_2 _ _ Hin) as [b Hb].
    unfold startDrag. rewrite (deref_Some _ _ _ Hb). simpl.
    eexists; split; [reflexivity|]. split.
    + unfold wf. simpl. by rewrite length_insert.
    + simpl. by rewrite length_insert.
  - destruct (listening s); [|by exists s].
    unfold doDrag, wf in *. destruct (activeBody s) as [i|] eqn:Ha;
      [|by exists s; rewrite ?Ha].
    destruct (lookup_lt_is_Some_2 _ _ Hwf) as [b Hb].
    rewrite (deref_Some _ _ _ Hb). simpl.
    destruct (dragging b).
    + eexists; split; [reflexivity|]. simpl. rewrite Ha, length_insert.
      by split.
    + exists s. by rewrite Ha.
  - destruct (listening s); [|by exists s].
    unfold endDrag, wf in *. destruct (activeBody s) as [i|] eqn:Ha;
      [|by exists s; rewrite ?Ha].
    destruct (lookup_lt_is_Some_2 _ _ Hwf) as [b Hb].
    rewrite (deref_Some _ _ _ Hb). simpl.
    destruct (dragging b).
    + eexists; split; [reflexivity|]. simpl. by rewrite length_insert.
    + exists s. by rewrite Ha.
  - eexists; split; [reflexivity|]. unfold wf in *.
    rewrite step_activeBody, step_length. by destruct (activeBody s).
Qed.

Lemma init_wf (innerWidth : N) randoms : wf (init innerWidth randoms).
Proof. exact I. Qed.

(** ** A second pointer-down *)

(** A pointer-down on icon [j] while icon [i] is being dragged leaves both
    bodies with [dragging = true]; [activeBody] now refers to [j] alone. *)
Lemma second_pointer_down (s : State N) i j bi bj ei ej :
  i <> j -> bodies s !! i = Some bi -> bodies s !! j = Some bj ->
  exists s2 bi' bj',
    run s [PointerDown i ei; PointerDown j ej] = Normal s2 /\
    bodies s2 !! i = Some bi' /\ dragging bi' = true /\
    bodies s2 !! j = Some bj' /\ dragging bj' = true /\
    activeBody s2 = Some j.
Proof.
  intros Hij Hi Hj.
  destruct (startDrag_active s i bi ei Hi)
    as (s1 & Hdown1 & _ & _ & bi' & Hi1 & Hdi & _).
  assert (Hj1 : bodies s1 !! j = Some bj)
    by (rewrite (startDrag_other _ _ _ _ _ Hdown1 Hij); exact Hj).
  destruct (startDrag_active s1 j bj ej Hj1)
    as (s2 & Hdown2 & Ha & _ & bj' & Hj2 & Hdj & _).
  exists s2, bi', bj'. repeat split; try done.
  - rewrite run_cons.
    change (dispatch s (PointerDown i ei)) with (startDrag ei i s).
    rewrite Hdown1. cbn [bind]. rewrite run_cons.
    change (dispatch s1 (PointerDown j ej)) with (startDrag ej j s1).
    rewrite Hdown2. reflexivity.
  - rewrite (startDrag_other _ _ _ _ _ Hdown2); [exact Hi1 | congruence].
Qed.

(** Once [activeBody] is null and the document listeners are gone, a body
    left with [dragging = true] stays as it is: no move, no release and no
    frame changes its flag or its position. *)
Lemma orphan_stays_frozen (s : State N) i b inps :
  activeBody s = None -> listening s = false ->
  bodies s !! i = Some b -> dragging b = true ->
  forallb no_pointer_down inps = true ->
  exists s' b', run s inps = Normal s' /\
    bodies s' !! i = Some b' /\ dragging b' = true /\
    x b' = x b /\ y b' = y b.
Proof.
  revert s b. induction inps as [|inp inps IH]; intros s b Ha Hl Hb Hd Hn.
  - exists s, b. by repeat split.
  - simpl in Hn. apply andb_true_iff in Hn as [Hinp Hn].
    rewrite run_cons.
    destruct inp as [|e|e|t w h]; try discriminate; cbn [dispatch bind].
    + rewrite Hl. cbn [bind]. by apply IH.
    + rewrite Hl. cbn [bind]. by apply IH.
    + destruct (IH (step t w h s) (applyTransform b)) as (s' & b' & Hr & ?);
        try done.
      * rewrite step_lookup, Hb. simpl.
        by rewrite (stepBody_dragging _ _ _ _ Hd).
      * by exists s', b'.
Qed.

(** ** Claims about the control flow *)

(** C7 (drag bypass).  A frame leaves the position and the velocity of a
    body that is being dragged exactly as they are, whatever the position
    and the viewport: neither gravity nor a boundary clamp is applied. *)
Theorem drag_bypass t w h (s : State N) i b :
  bodies s !! i = Some b -> dragging b = true ->
  exists b', bodies (step t w h s) !! i = Some b' /\
    x b' = x b /\ y b' = y b /\ vx b' = vx b /\ vy b' = vy b /\
    dragging b' = true.
Proof.
  intros Hb Hd. exists (applyTransform b). rewrite step_lookup, Hb. simpl.
  rewrite (stepBody_dragging _ _ _ _ Hd). by repeat split.
Qed.

(** C4, as the code has it.  Steps 1 to 6 are skipped for a body that is
    being dragged, step 7 is not: a frame assigns the transform of every
    body, and for a dragged body it is the translation to the position the
    drag controller left. *)
Theorem frame_writes_every_transform t w h (s : State N) i b :
  bodies s !! i = Some b ->
  exists b', bodies (step t w h s) !! i = Some b' /\
    style_transform (el b') = {| pos_x := x b'; pos_y := y b' |} /\
    (dragging b = true ->
     b' = set_el b {| style_transform := {| pos_x := x b; pos_y := y b |} |}).
Proof.
  intros Hb. exists (stepBody (frame_dt t (lastTimestamp s)) w h b).
  rewrite step_lookup, Hb. simpl. repeat split.
  intros Hd. by rewrite (stepBody_dragging _ _ _ _ Hd).
Qed.

(** C9.  With no active drag target, [doDrag] and [endDrag] return normally
    and leave every variable of the script as it was, whether they are
    called directly or through the document's listeners. *)
Theorem no_target_is_noop (s : State N) e :
  activeBody s = None ->
  doDrag e s = Normal s /\ endDrag e s = Normal s /\
  dispatch s (PointerMove e) = Normal s /\
  dispatch s (PointerUp e) = Normal s.
Proof.
  intros Ha. unfold dispatch, doDrag, endDrag. rewrite Ha.
  repeat split; by destruct (listening s).
Qed.

(** C6 (velocity handoff).  In a drag with at least one pointer-move, the
    velocity the body is released with is the difference between the last
    pointer position and the one before it (the pointer-down position when
    there was a single move); earlier moves do not enter. *)
Theorem launch_velocity_is_last_delta
    (s : State N) i b e0 mid e1 frames eup :
  bodies s !! i = Some b ->
  forallb is_move_or_frame mid = true ->
  forallb is_frame frames = true ->
  exists s' b',
    run s (PointerDown i e0 :: mid ++ PointerMove e1 :: frames
             ++ [PointerUp eup]) = Normal s' /\
    bodies s' !! i = Some b' /\ dragging b' = false /\
    vx b' = pos_x (getPointerPos e1)
            - pos_x (lastPointer (getPointerPos e0) mid) /\
    vy b' = pos_y (getPointerPos e1)
            - pos_y (lastPointer (getPointerPos e0) mid).
Proof.
  intros Hb Hm Hf.
  destruct (startDrag_active s i b e0 Hb) as (s1 & Hdown & Hs1).
  destruct (moves_active _ _ _ _ _ _ Hm Hs1) as (s2 & vxp & vyp & Hmid & Hs2).
  destruct (move_active _ _ _ _ _ e1 Hs2) as (s3 & Hmove & Hs3).
  destruct (frames_active _ _ _ _ _ _ Hf Hs3) as (s4 & Hrun & Hs4).
  destruct (release_active _ _ _ _ _ eup Hs4)
    as (s5 & b5 & Hup & Hb5 & Hd & Hvx & Hvy & _).
  exists s5, b5. split; [|done].
  rewrite run_cons.
  change (dispatch s (PointerDown i e0)) with (startDrag e0 i s).
  rewrite Hdown. cbn [bind]. rewrite run_app, Hmid. cbn [bind].
  rewrite run_cons, Hmove. cbn [bind]. rewrite run_app, Hrun. cbn [bind].
  rewrite run_cons, Hup. reflexivity.
Qed.

(** C8, as the code has it (friction isolation).  In a step where the body
    bounces off the left or the right wall and touches neither the top nor
    the bottom edge, collision resolution leaves [vy] alone and turns [vx]
    into [-vx * 0.6]; and in every step the final [vx] is the [vx] the wall
    resolution left, times the friction factor exactly when the
    bottom-collision branch runs. *)
Theorem friction_only_on_bottom dt maxX maxY (b : Body N) :
  dragging b = false ->
  let b1 := integrate dt b in
  let wall := (x b1 <? lit 0) || (x b1 + width b1 >? maxX) in
  let top := y b1 <? lit 0 in
  let bottom := (if top then lit 0 else y b1) + height b1 >? maxY in
  let vx_wall := if wall then - vx b1 * bounceFactor else vx b1 in
  let b' := stepBody dt maxX maxY b in
  (wall = true -> top = false -> bottom = false ->
   vx b' = - vx b1 * bounceFactor /\ vy b' = vy b1) /\
  vx b' = (if bottom then vx_wall * friction else vx_wall).
Proof.
  intros Hd. cbv zeta. unfold stepBody. rewrite Hd. simpl negb. cbv iota.
  generalize (integrate dt b). intros b1.
  unfold collideBottom, collideTop, collideX.
  destruct (x b1 <? lit 0) eqn:Hl; destruct (x b1 + width b1 >? maxX) eqn:Hr;
    simpl; destruct (y b1 <? lit 0) eqn:Ht; simpl;
    repeat match goal with
      | |- context [if ?c then _ else _] => destruct c eqn:?; simpl
      end;
    (split; [intros; try done | reflexivity]).
Qed.
(** ** What the pointer handlers change *)

(** A pointer handler either leaves the array of bodies alone or replaces
    its target by a body with the same element and the same size. *)
Lemma pointer_shape (s s' : State N) inp :
  is_frame inp = false -> dispatch s inp = Normal s' ->
  lastTimestamp s' = lastTimestamp s /\
  (bodies s' = bodies s \/
   exists i b b', target s inp = Some i /\ bodies s !! i = Some b /\
     bodies s' = <[i := b']> (bodies s) /\
     el b' = el b /\ width b' = width b /\ height b' = height b).
Proof.
  intros Hf. destruct inp as [i e|e|e|t w h]; try discriminate; simpl.
  - unfold startDrag, deref. destruct (bodies s !! i) as [b|] eqn:Hb;
      [|discriminate].
    simpl. intros [= <-]. split; [reflexivity|]. right.
    eexists i, b, _. by repeat split.
  - destruct (listening s); [|intros [= <-]; by split; [|left]].
    unfold doDrag, deref. destruct (activeBody s) as [i|];
      [|intros [= <-]; by split; [|left]].
    destruct (bodies s !! i) as [b|] eqn:Hb; [|discriminate]. simpl.
    destruct (dragging b); intros [= <-]; [|by split; [|left]].
    split; [reflexivity|]. right. eexists i, b, _. by repeat split.
  - destruct (listening s); [|intros [= <-]; by split; [|left]].
    unfold endDrag, deref. destruct (activeBody s) as [i|];
      [|intros [= <-]; by split; [|left]].
    destruct (bodies s !! i) as [b|] eqn:Hb; [|discriminate]. simpl.
    destruct (dragging b); intros [= <-]; [|by split; [|left]].
    split; [reflexivity|]. right. eexists i, b, _. by repeat split.
Qed.

(** X4.  A pointer-down, a move or a release changes no body but the one
    its handler runs on, assigns no element's transform, and leaves the
    timestamp of the last frame alone. *)
Theorem pointer_events_touch_one_body (s s' : State N) inp :
  is_frame inp = false -> dispatch s inp = Normal s' ->
  (forall j, target s inp <> Some j -> bodies s' !! j = bodies s !! j) /\
  el <$> bodies s' = el <$> bodies s /\
  lastTimestamp s' = lastTimestamp s.
Proof.
  intros Hf Hd.
  destruct (pointer_shape s s' inp Hf Hd)
    as [Ht [Hb | (i & b & b' & Hi & Hb & Hs & He & _)]].
  - rewrite Hb. by repeat split.
  - rewrite Hs. split; [|split; [|exact Ht]].
    + intros j Hj. apply list_lookup_insert_ne. congruence.
    + rewrite list_fmap_insert, He. apply list_insert_id.
      by rewrite list_lookup_fmap, Hb.
Qed.

Lemma dispatch_size (s s' : State N) inp i b :
  dispatch s inp = Normal s' -> bodies s !! i = Some b ->
  exists b', bodies s' !! i = Some b' /\
             width b' = width b /\ height b' = height b.
Proof.
  intros Hd Hb. destruct (is_frame inp) eqn:Hf.
  - destruct inp as [| | |t w h]; try discriminate. simpl in Hd.
    injection Hd as <-. rewrite step_lookup, Hb. simpl.
    eexists; split; [reflexivity|]. apply stepBody_size.
  - destruct (pointer_shape s s' inp Hf Hd)
      as [_ [Hs | (k & bk & b' & _ & Hk & Hs & _ & Hw & Hh)]];
      rewrite Hs; [by exists b|].
    destruct (decide (k = i)) as [->|Hne].
    + rewrite list_lookup_insert_eq by (by eapply lookup_lt_Some).
      exists b'. replace b with bk by congruence. by repeat split.
    + rewrite list_lookup_insert_ne by done. by exists b.
Qed.

(** X3.  No input removes a body or changes its size: after any run, every
    body is still in the array, at its index, with the width and the
    height it had. *)
Theorem size_never_changes (s s' : State N) inps i b :
  run s inps = Normal s' -> bodies s !! i = Some b ->
  exists b', bodies s' !! i = Some b' /\
             width b' = width b /\ height b' = height b.
Proof.
  revert s b. induction inps as [|inp inps IH]; intros s b Hrun Hb.
  - injection Hrun as <-. by exists b.
  - rewrite run_cons in Hrun.
    destruct (dispatch s inp) as [s1|] eqn:Hd; [|discriminate].
    cbn [bind] in Hrun.
    destruct (dispatch_size _ _ _ _ _ Hd Hb) as (b1 & Hb1 & Hw1 & Hh1).
    destruct (IH s1 b1 Hrun Hb1) as (b' & Hb' & Hw & Hh).
    exists b'. split; [exact Hb'|]. split; congruence.
Qed.

(** ** The states a run reaches *)

Lemma consistent_active (s : State N) i :
  drag_consistent s -> activeBody s = Some i ->
  exists p vxp vyp, drag_active i p vxp vyp s.
Proof.
  unfold drag_consistent. intros Hc Ha. rewrite Ha in Hc.
  destruct Hc as (Hl & b & Hb & Hd).
  exists (lastPointerPos b), (vxPointer b), (vyPointer b).
  repeat split; try done. by exists b.
Qed.

Lemma active_consistent (s : State N) i p vxp vyp :
  drag_active i p vxp vyp s -> drag_consistent s.
Proof.
  intros (Ha & Hl & b & Hb & Hd & _). unfold drag_consistent. rewrite Ha.
  split; [exact Hl|]. by exists b.
Qed.

Lemma consistent_listening (s : State N) :
  drag_consistent s -> listening s = true ->
  exists i, activeBody s = Some i.
Proof.
  unfold drag_consistent. destruct (activeBody s) as [i|].
  - intros _ _. by exists i.
  - congruence.
Qed.

Lemma dispatch_consistent (s : State N) inp :
  drag_consistent s -> deliverable s inp ->
  exists s', dispatch s inp = Normal s' /\ drag_consistent s' /\
             length (bodies s') = length (bodies s).
Proof.
  intros Hc Hin.
  assert (Hwf : wf s).
  { unfold wf, drag_consistent in *. destruct (activeBody s) as [i|]; [|done].
    destruct Hc as (_ & b & Hb & _). by eapply lookup_lt_Some. }
  destruct (dispatch_never_throws s inp Hwf Hin) as (s' & Hd & _ & Hlen).
  exists s'. split; [exact Hd|]. split; [|exact Hlen].
  destruct inp as [i e|e|e|t w h]; simpl in Hd, Hin.
  - destruct (lookup_lt_is_Some_2 _ _ Hin) as [b Hb].
    destruct (startDrag_active s i b e Hb) as (s1 & Hd1 & Hs1).
    replace s' with s1 by congruence. by eapply active_consistent.
  - destruct (listening s) eqn:Hl; [|by injection Hd as <-].
    destruct (consistent_listening s Hc Hl) as [i Ha].
    destruct (consistent_active s i Hc Ha) as (p & vxp & vyp & Hs).
    destruct (move_active _ _ _ _ _ e Hs) as (s1 & Hd1 & Hs1).
    simpl in Hd1. rewrite Hl in Hd1.
    replace s' with s1 by congruence. by eapply active_consistent.
  - destruct (listening s) eqn:Hl; [|by injection Hd as <-].
    destruct (consistent_listening s Hc Hl) as [i Ha].
    destruct (consistent_active s i Hc Ha) as (p & vxp & vyp & Hs).
    destruct (release_active _ _ _ _ _ e Hs)
      as (s1 & b1 & Hd1 & _ & _ & _ & _ & Ha1 & Hl1).
    simpl in Hd1. rewrite Hl in Hd1.
    replace s' with s1 by congruence.
    unfold drag_consistent. by rewrite Ha1.
  - injection Hd as <-. destruct (activeBody s) as [i|] eqn:Ha.
    + destruct (consistent_active s i Hc Ha) as (p & vxp & vyp & Hs).
      eapply active_consistent. by apply frame_active.
    + unfold drag_consistent in *. by rewrite step_activeBody, Ha in *.
Qed.

Lemma deliverable_length (s s' : State N) inp :
  length (bodies s') = length (bodies s) ->
  deliverable s inp -> deliverable s' inp.
Proof. intros Hlen. destruct inp; simpl; [by rewrite Hlen | done..]. Qed.

Lemma run_consistent (s : State N) inps :
  drag_consistent s -> Forall (deliverable s) inps ->
  exists s', run s inps = Normal s' /\ drag_consistent s' /\
             length (bodies s') = length (bodies s).
Proof.
  revert s. induction inps as [|inp inps IH]; intros s Hc Hin.
  - by exists s.
  - apply Forall_cons in Hin as [Hinp Hin].
    destruct (dispatch_consistent s inp Hc Hinp) as (s1 & Hd & Hc1 & Hlen1).
    destruct (IH s1 Hc1) as (s' & Hrun & Hc' & Hlen').
    { eapply Forall_impl; [exact Hin|]. intros inp'.
      by apply deliverable_length. }
    exists s'. rewrite run_cons, Hd. cbn [bind].
    split; [exact Hrun|]. split; [exact Hc'|]. congruence.
Qed.

(** X2.  From the state [init] builds, every sequence of inputs whose
    pointer-downs land on existing icons is handled without a fault; at
    the end there is still one body per icon, the document listeners are
    registered exactly when a body is active, and the active body is
    being dragged. *)
Theorem run_from_init_consistent (innerWidth : N) randoms inps :
  Forall (deliverable (init innerWidth randoms)) inps ->
  exists s, run (init innerWidth randoms) inps = Normal s /\
    length (bodies s) = length randoms /\ drag_consistent s.
Proof.
  intros Hin.
  destruct (run_consistent (init innerWidth randoms) inps) as (s & Hr & Hc & Hl);
    [reflexivity | exact Hin |].
  exists s. split; [exact Hr|]. split; [|exact Hc].
  rewrite Hl. simpl. apply length_fmap.
Qed.

(** ** The dragged body follows the pointer *)

Lemma startDrag_held (s : State N) i b e :
  bodies s !! i = Some b ->
  exists s', startDrag e i s = Normal s' /\
    drag_held i (pos_x (getPointerPos e) - x b)
                (pos_y (getPointerPos e) - y b) s'.
Proof.
  intros Hb. unfold startDrag. rewrite (deref_Some _ _ _ Hb). simpl.
  eexists; split; [reflexivity|].
  repeat split. eexists; split.
  - simpl. apply list_lookup_insert_eq. by eapply lookup_lt_Some.
  - repeat split.
Qed.

Lemma frame_held (s : State N) i ox oy t w h :
  drag_held i ox oy s -> drag_held i ox oy (step t w h s).
Proof.
  intros (Ha & Hl & b & Hb & Hd & Hox & Hoy).
  repeat split; [exact Ha | exact Hl |].
  exists (applyTransform b). rewrite step_lookup, Hb. simpl.
  rewrite (stepBody_dragging _ _ _ _ Hd). by repeat split.
Qed.

Lemma move_held (s : State N) i ox oy e :
  drag_held i ox oy s ->
  exists s' b', dispatch s (PointerMove e) = Normal s' /\
    drag_held i ox oy s' /\ bodies s' !! i = Some b' /\
    dragging b' = true /\
    x b' = pos_x (getPointerPos e) - ox /\
    y b' = pos_y (getPointerPos e) - oy.
Proof.
  intros (Ha & Hl & b & Hb & Hd & Hox & Hoy).
  simpl. rewrite Hl. unfold doDrag. rewrite Ha, (deref_Some _ _ _ Hb). simpl.
  rewrite Hd. do 2 eexists; split; [reflexivity|].
  assert (Hi : (i < length (bodies s))%nat) by (by eapply lookup_lt_Some).
  split; [|split].
  - repeat split; [exact Ha | exact Hl |]. eexists; split.
    + simpl. by apply list_lookup_insert_eq.
    + by repeat split.
  - simpl. by apply list_lookup_insert_eq.
  - simpl. rewrite Hox, Hoy. by repeat split.
Qed.

Lemma moves_held (s : State N) i ox oy mid :
  forallb is_move_or_frame mid = true ->
  drag_held i ox oy s ->
  exists s', run s mid = Normal s' /\ drag_held i ox oy s'.
Proof.
  revert s. induction mid as [|inp mid IH]; intros s Hf Hs.
  - by exists s.
  - simpl in Hf. apply andb_true_iff in Hf as [Hi Hf].
    destruct inp as [|e| |t w h]; try discriminate.
    + destruct (move_held _ _ _ _ e Hs) as (s1 & b1 & Hrun & Hs1 & _).
      rewrite run_cons, Hrun. cbn [bind]. by apply IH.
    + simpl. apply (IH _ Hf). by apply frame_held.
Qed.

Lemma drag_position (s : State N) i b e0 mid e1 :
  bodies s !! i = Some b ->
  forallb is_move_or_frame mid = true ->
  exists s' b',
    run s (PointerDown i e0 :: mid ++ [PointerMove e1]) = Normal s' /\
    bodies s' !! i = Some b' /\ dragging b' = true /\
    x b' = pos_x (getPointerPos e1) - (pos_x (getPointerPos e0) - x b) /\
    y b' = pos_y (getPointerPos e1) - (pos_y (getPointerPos e0) - y b).
Proof.
  intros Hb Hm.
  destruct (startDrag_held s i b e0 Hb) as (s1 & Hdown & Hs1).
  destruct (moves_held _ _ _ _ _ Hm Hs1) as (s2 & Hmid & Hs2).
  destruct (move_held _ _ _ _ e1 Hs2) as (s3 & b3 & Hmove & _ & Hb3 & Hrest).
  exists s3, b3. split; [|done].
  rewrite run_cons.
  change (dispatch s (PointerDown i e0)) with (startDrag e0 i s).
  rewrite Hdown. cbn [bind]. rewrite run_app, Hmid. cbn [bind].
  rewrite run_cons, Hmove. reflexivity.
Qed.

(** X5.  While a body is dragged, each pointer-move puts it at the pointer
    position minus the offset taken at the pointer-down (the pointer-down
    position minus the position the body had then), whatever moves and
    frames came in between; no clamp is applied.  The pointer position of
    an event is its first touch point when it has touches, and its
    [clientX], [clientY] otherwise. *)
Theorem drag_follows_pointer (s : State N) i b e0 mid e1 :
  bodies s !! i = Some b ->
  forallb is_move_or_frame mid = true ->
  let px e := match touches e with t :: _ => pos_x t | [] => clientX e end in
  let py e := match touches e with t :: _ => pos_y t | [] => clientY e end in
  exists s' b',
    run s (PointerDown i e0 :: mid ++ [PointerMove e1]) = Normal s' /\
    bodies s' !! i = Some b' /\ dragging b' = true /\
    x b' = px e1 - (px e0 - x b) /\
    y b' = py e1 - (py e0 - y b).
Proof.
  intros Hb Hm px py.
  destruct (drag_position s i b e0 mid e1 Hb Hm)
    as (s' & b' & Hrun & Hb' & Hd & Hx & Hy).
  exists s', b'. split; [exact Hrun|]. split; [exact Hb'|].
  split; [exact Hd|]. rewrite Hx, Hy. unfold px, py, getPointerPos.
  by destruct (touches e0), (touches e1).
Qed.

(** ** A single pointer *)

Lemma dispatch_one_drag (s s' : State N) inp :
  drag_consistent s -> one_drag s ->
  (forall i e, inp = PointerDown i e -> activeBody s = None) ->
  dispatch s inp = Normal s' ->
  drag_consistent s' /\ one_drag s' /\
  is_down s' = match inp with
               | PointerDown _ _ => true
               | PointerUp _ => false
               | _ => is_down s
               end.
Proof.
  intros Hc Ho Hsingle Hd.
  destruct inp as [i e|e|e|t w h]; simpl in Hd.
  - pose proof (Hsingle i e eq_refl) as Hnone.
    unfold startDrag, deref in Hd.
    destruct (bodies s !! i) as [b|] eqn:Hb; [|discriminate].
    destruct (startDrag_active s i b e Hb) as (s1 & Hd1 & Hs1).
    assert (Hi : (i < length (bodies s))%nat) by (by eapply lookup_lt_Some).
    split; [|split].
    + unfold startDrag in Hd1. rewrite (deref_Some _ _ _ Hb) in Hd1.
      replace s' with s1 by congruence. by eapply active_consistent.
    + simpl in Hd. injection Hd as <-. intros j bj. simpl.
      destruct (decide (i = j)) as [->|Hne]; [done|].
      rewrite list_lookup_insert_ne by done. intros Hj Hdj.
      specialize (Ho j bj Hj Hdj). congruence.
    + simpl in Hd. by injection Hd as <-.
  - destruct (listening s) eqn:Hl; [|by injection Hd as <-].
    destruct (consistent_listening s Hc Hl) as [i Ha].
    unfold doDrag, deref in Hd. rewrite Ha in Hd.
    unfold drag_consistent in Hc. rewrite Ha in Hc.
    destruct Hc as (_ & b & Hb & Hdb). rewrite Hb in Hd. simpl in Hd.
    rewrite Hdb in Hd. injection Hd as <-.
    assert (Hi : (i < length (bodies s))%nat) by (by eapply lookup_lt_Some).
    split; [|split].
    + unfold drag_consistent. simpl. rewrite Ha. split; [exact Hl|].
      eexists. split; [by apply list_lookup_insert_eq|]. exact Hdb.
    + intros j bj. simpl.
      destruct (decide (i = j)) as [->|Hne]; [by rewrite Ha|].
      rewrite list_lookup_insert_ne by done. apply Ho.
    + reflexivity.
  - destruct (listening s) eqn:Hl.
    + destruct (consistent_listening s Hc Hl) as [i Ha].
      unfold endDrag, deref in Hd. rewrite Ha in Hd.
      unfold drag_consistent in Hc. rewrite Ha in Hc.
      destruct Hc as (_ & b & Hb & Hdb). rewrite Hb in Hd. simpl in Hd.
      rewrite Hdb in Hd. injection Hd as <-.
      assert (Hi : (i < length (bodies s))%nat) by (by eapply lookup_lt_Some).
      split; [|split]; [reflexivity | | reflexivity].
      intros j bj. simpl.
      destruct (decide (i = j)) as [->|Hne].
      * rewrite list_lookup_insert_eq by done. by intros [= <-].
      * rewrite list_lookup_insert_ne by done. intros Hj Hdj.
        specialize (Ho j bj Hj Hdj). congruence.
    + injection Hd as <-. split; [exact Hc|]. split; [exact Ho|].
      unfold drag_consistent, is_down in *.
      destruct (activeBody s); [|done]. destruct Hc. congruence.
  - injection Hd as <-. split; [|split].
    + destruct (activeBody s) as [i|] eqn:Ha.
      * destruct (consistent_active s i Hc Ha) as (p & vxp & vyp & Hs).
        eapply active_consistent. by apply frame_active.
      * unfold drag_consistent in *. by rewrite step_activeBody, Ha in *.
    + intros j bj. rewrite step_lookup, step_activeBody.
      destruct (bodies s !! j) as [b0|] eqn:Hj; [|discriminate]. simpl.
      intros [= <-]. rewrite stepBody_keeps_dragging. by apply Ho.
    + reflexivity.
Qed.

Lemma run_one_drag (s s' : State N) inps :
  drag_consistent s -> one_drag s ->
  single_pointer (is_down s) inps = true ->
  run s inps = Normal s' -> one_drag s'.
Proof.
  revert s. induction inps as [|inp inps IH]; intros s Hc Ho Hsp Hrun.
  - by injection Hrun as <-.
  - rewrite run_cons in Hrun.
    destruct (dispatch s inp) as [s1|] eqn:Hd; [|discriminate].
    cbn [bind] in Hrun.
    destruct (dispatch_one_drag s s1 inp Hc Ho) as (Hc1 & Ho1 & Hdown);
      [|exact Hd|].
    { intros i e ->. simpl in Hsp. unfold is_down in Hsp.
      by destruct (activeBody s). }
    apply (IH s1 Hc1 Ho1); [|exact Hrun]. rewrite Hdown.
    destruct inp; simpl in Hsp; try exact Hsp.
    by apply andb_true_iff in Hsp as [_ Hsp].
Qed.

(** X6.  With a single pointer (no pointer-down arrives before the release
    of the previous one), the only body that is ever being dragged is the
    active one; so at most one body has [dragging = true]. *)
Theorem single_pointer_one_drag (innerWidth : N) randoms inps s :
  single_pointer false inps = true ->
  run (init innerWidth randoms) inps = Normal s ->
  forall i j bi bj,
    bodies s !! i = Some bi -> dragging bi = true ->
    bodies s !! j = Some bj -> dragging bj = true ->
    i = j /\ activeBody s = Some i.
Proof.
  intros Hsp Hrun.
  assert (Ho : one_drag s).
  { apply (run_one_drag (init innerWidth randoms) s inps);
      [reflexivity | | exact Hsp | exact Hrun].
    intros i b. unfold init. simpl. rewrite list_lookup_fmap.
    destruct (randoms !! i) as [[[r1 r2] r3]|]; [|discriminate].
    simpl. by intros [= <-]. }
  intros i j bi bj Hi Hdi Hj Hdj.
  pose proof (Ho i bi Hi Hdi) as Hai. pose proof (Ho j bj Hj Hdj) as Haj.
  split; [congruence | exact Hai].
Qed.

(** ** A frame away from the edges *)

Lemma stepBody_no_hit dt maxX maxY (b : Body N) :
  dragging b = false ->
  hits_edge maxX maxY (integrate dt b) = false ->
  x (stepBody dt maxX maxY b) = x b + vx b * dt /\
  vx (stepBody dt maxX maxY b) = vx b /\
  vy (stepBody dt maxX maxY b) = vy b + gravity * dt /\
  y (stepBody dt maxX maxY b) = y b + (vy b + gravity * dt) * dt /\
  dragging (stepBody dt maxX maxY b) = false.
Proof.
  intros Hd. unfold hits_edge, stepBody. rewrite Hd. simpl negb. cbv iota.
  intros Hh.
  apply orb_false_iff in Hh as [Hh Hb].
  apply orb_false_iff in Hh as [Hh Ht].
  apply orb_false_iff in Hh as [Hl Hr].
  unfold collideBottom, collideTop, collideX.
  rewrite Hl, Hr, Ht, Hb. simpl. by rewrite Hd.
Qed.

(** X7.  As long as no collision test fires, every frame is one explicit
    Euler step with the velocity updated before the position:
    [vy' = vy + 0.4 * dt], [x' = x + vx * dt], [y' = y + vy' * dt]; and
    [vx] is the same after any number of such frames. *)
Theorem free_frames_are_euler_steps dt maxX maxY (b : Body N) n :
  dragging b = false ->
  (forall m, (m < n)%nat ->
     hits_edge maxX maxY (integrate dt (frames_of dt maxX maxY m b)) = false) ->
  vx (frames_of dt maxX maxY n b) = vx b /\
  forall m, (m < n)%nat ->
    let bm := frames_of dt maxX maxY m b in
    let bm' := frames_of dt maxX maxY (S m) b in
    vy bm' = vy bm + gravity * dt /\
    x bm' = x bm + vx b * dt /\
    y bm' = y bm + vy bm' * dt.
Proof.
  intros Hd Hfree.
  assert (Hinv : forall m, (m <= n)%nat ->
    dragging (frames_of dt maxX maxY m b) = false /\
    vx (frames_of dt maxX maxY m b) = vx b).
  { induction m as [|m IH]; intros Hm; [by split|].
    destruct IH as [Hdm Hvm]; [lia|].
    change (frames_of dt maxX maxY (S m) b)
      with (stepBody dt maxX maxY (frames_of dt maxX maxY m b)).
    destruct (stepBody_no_hit dt maxX maxY _ Hdm (Hfree m Hm))
      as (_ & Evx & _ & _ & Ed).
    split; [exact Ed | congruence]. }
  split; [by apply Hinv|].
  intros m Hm. cbv zeta.
  destruct (Hinv m) as [Hdm Hvm]; [lia|].
  change (frames_of dt maxX maxY (S m) b)
    with (stepBody dt maxX maxY (frames_of dt maxX maxY m b)).
  destruct (stepBody_no_hit dt maxX maxY _ Hdm (Hfree m Hm))
    as (Ex & _ & Evy & Ey & _).
  rewrite Ex, Evy, Ey, Hvm. by repeat split.
Qed.

(** ** A release without a move *)

Lemma startDrag_held_at (s : State N) i b e :
  bodies s !! i = Some b ->
  exists s', startDrag e i s = Normal s' /\ held_at i (x b) (y b) s'.
Proof.
  intros Hb. unfold startDrag. rewrite (deref_Some _ _ _ Hb). simpl.
  eexists; split; [reflexivity|].
  repeat split. eexists; split.
  - simpl. apply list_lookup_insert_eq. by eapply lookup_lt_Some.
  - repeat split.
Qed.

Lemma frames_held_at (s : State N) i x0 y0 frames :
  forallb is_frame frames = true ->
  held_at i x0 y0 s ->
  exists s', run s frames = Normal s' /\ held_at i x0 y0 s'.
Proof.
  revert s. induction frames as [|inp frames IH]; intros s Hf Hs; simpl.
  - by exists s.
  - simpl in Hf. apply andb_true_iff in Hf as [Hi Hf].
    destruct inp as [| | |t w h]; try discriminate. simpl.
    apply IH; [exact Hf|].
    destruct Hs as (Ha & Hl & b & Hb & Hd & Hvx & Hvy & Hx & Hy).
    repeat split; [exact Ha | exact Hl |].
    exists (applyTransform b). rewrite step_lookup, Hb. simpl.
    rewrite (stepBody_dragging _ _ _ _ Hd). by repeat split.
Qed.

Lemma release_held_at (s : State N) i x0 y0 e :
  held_at i x0 y0 s ->
  exists s' b', dispatch s (PointerUp e) = Normal s' /\
    bodies s' !! i = Some b' /\ dragging b' = false /\
    vx b' = lit 0 /\ vy b' = lit 0 /\ x b' = x0 /\ y b' = y0.
Proof.
  intros (Ha & Hl & b & Hb & Hd & Hvx & Hvy & Hx & Hy).
  simpl. rewrite Hl. unfold endDrag. rewrite Ha, (deref_Some _ _ _ Hb). simpl.
  rewrite Hd. do 2 eexists; split; [reflexivity|]. split.
  - simpl. apply list_lookup_insert_eq. by eapply lookup_lt_Some.
  - simpl. by repeat split.
Qed.


(** ** The collision tests after a frame *)

(** Case analysis on the comparisons of a goal, innermost first. *)
Ltac bcases :=
  repeat match goal with
    | |- context [if nlt ?a ?b then _ else _] =>
        lazymatch a with
        | context [if _ then _ else _] => fail
        | _ => idtac
        end;
        lazymatch b with
        | context [if _ then _ else _] => fail
        | _ => idtac
        end;
        let E := fresh "E" in
        destruct (nlt a b) eqn:E; simpl
    end.

Lemma stepBody_tests dt maxX maxY (b : Body N) :
  dragging b = false ->
  (lit 0 <? lit 0) = false ->
  (lit 0 + width b >? maxX) = false ->
  (maxX - width b <? lit 0) = false ->
  (maxY - height b <? lit 0) = false ->
  let b' := stepBody dt maxX maxY b in
  (x b' <? lit 0) = false /\ (y b' <? lit 0) = false /\
  (x b' = maxX - width b \/ (x b' + width b >? maxX) = false) /\
  (y b' = maxY - height b \/ (y b' + height b >? maxY) = false).
Proof.
  intros Hd H0 Hfit Hw Hh. cbv zeta. unfold stepBody. rewrite Hd.
  simpl negb. cbv iota.
  unfold collideBottom, collideTop, collideX, integrate. simpl.
  bcases; repeat split; try assumption;
    try (left; reflexivity); try (right; assumption).
Qed.

(** C3, as the code has it (boundary containment).  After a frame, for a
    body that is not being dragged in a viewport at least as large as the
    body, the tests [x < 0] and [y < 0] are false, [x] is
    [innerWidth - width] or the test [x + width > innerWidth] is false,
    and [y] is [innerHeight - height] or the test
    [y + height > innerHeight] is false; sums, differences and comparisons
    are those the script computes. *)
Theorem boundary_tests_after_step t w h (s : State N) i b' :
  bodies (step t w h s) !! i = Some b' ->
  dragging b' = false ->
  (lit 0 <? lit 0) = false ->
  (lit 0 + width b' >? w) = false ->
  (w - width b' <? lit 0) = false ->
  (h - height b' <? lit 0) = false ->
  (x b' <? lit 0) = false /\ (y b' <? lit 0) = false /\
  (x b' = w - width b' \/ (x b' + width b' >? w) = false) /\
  (y b' = h - height b' \/ (y b' + height b' >? h) = false).
Proof.
  rewrite step_lookup. generalize (frame_dt t (lastTimestamp s)). intros dt.
  destruct (bodies s !! i) as [b|]; [|discriminate].
  cbn [fmap option_fmap option_map]. intros [= <-].
  rewrite stepBody_keeps_dragging.
  destruct (stepBody_size dt w h b) as [-> ->].
  intros Hd H0 Hfit Hw Hh. by apply stepBody_tests.
Qed.

(** ** A bottom contact *)


End Control.

(** * Properties in exact arithmetic *)

Section Exact.
#[local] Open Scope Q_scope.

Lemma Qltb_true (a b : Q) : QMicromega.Qlt_bool a b = true -> a < b.
Proof. apply QMicromega.Qlt_bool_iff. Qed.

Lemma Qltb_false (a b : Q) : QMicromega.Qlt_bool a b = false -> b <= a.
Proof.
  intros E. apply Qnot_lt_le. intros Hlt.
  apply QMicromega.Qlt_bool_iff in Hlt. congruence.
Qed.

Lemma Qltb_intro_true (a b : Q) : a < b -> QMicromega.Qlt_bool a b = true.
Proof. apply QMicromega.Qlt_bool_iff. Qed.

Lemma Qltb_intro_false (a b : Q) : b <= a -> QMicromega.Qlt_bool a b = false.
Proof.
  intros Hle. destruct (QMicromega.Qlt_bool a b) eqn:E; [|reflexivity].
  apply Qltb_true in E. lra.
Qed.

(** Case analysis on the comparisons of a goal, innermost first. *)
Ltac qcases :=
  repeat match goal with
    | |- context [if QMicromega.Qlt_bool ?a ?b then _ else _] =>
        lazymatch a with
        | context [if _ then _ else _] => fail
        | _ => idtac
        end;
        lazymatch b with
        | context [if _ then _ else _] => fail
        | _ => idtac
        end;
        let E := fresh "E" in
        destruct (QMicromega.Qlt_bool a b) eqn:E;
        [apply Qltb_true in E | apply Qltb_false in E]; cbn in *
    end.

Lemma frame_dt_first (t : Q) : frame_dt t None == 0.
Proof. unfold frame_dt, baseline. cbn. field. Qed.

(** ** The first frame *)

(** C1, as stated, fails: the first frame moves a freshly created icon,
    which [init] places above the viewport, onto the top edge. *)
Lemma first_frame_moves_fresh_icon :
  ~ (forall (s : State Q) t w h i b b',
       lastTimestamp s = None ->
       bodies s !! i = Some b ->
       bodies (step t w h s) !! i = Some b' ->
       x b' == x b /\ y b' == y b).
Proof.
  intros C.
  destruct (C (two_icons_init Q) 1000 800 600 0%nat _ _ eq_refl eq_refl eq_refl)
    as [_ Hy].
  vm_compute in Hy. discriminate.
Qed.

(** Every icon does so, whatever [Math.random()] returned. *)
Lemma fresh_icon_lands_on_top_edge (t w h innerWidth r1 r2 r3 : Q) :
  0 <= r2 -> 80 <= h ->
  y (initBody innerWidth (r1, r2, r3)) <= -80 /\
  y (stepBody (frame_dt t None) w h (initBody innerWidth (r1, r2, r3))) == 0.
Proof.
  intros Hr Hh. split; [cbn; lra|].
  pose proof (frame_dt_first t) as Hdt. revert Hdt.
  generalize (frame_dt t None). intros dt Hdt.
  assert (H1 : r3 * dt == 0) by (rewrite Hdt; ring).
  assert (H2 : dt * dt == 0) by (rewrite Hdt; ring).
  unfold stepBody, collideBottom, collideTop, collideX, integrate. cbn.
  qcases; lra.
Qed.

(** C1, as the code has it.  On the first frame no time has elapsed, so
    integration displaces nothing: the position after the frame is the
    position before it, passed through the boundary clamps.  A body that
    is being dragged, or that lies within the bounds of the viewport,
    keeps its position. *)
Theorem first_frame_only_clamps (s : State Q) t w h i b :
  lastTimestamp s = None ->
  bodies s !! i = Some b ->
  exists b', bodies (step t w h s) !! i = Some b' /\
    (let c := if dragging b then b
              else collideBottom h (collideTop (collideX w b)) in
     x b' == x c /\ y b' == y c) /\
    (dragging b = true \/
     (0 <= x b /\ x b + width b <= w /\ 0 <= y b /\ y b + height b <= h) ->
     x b' == x b /\ y b' == y b).
Proof.
  intros Hl Hb. rewrite step_lookup, Hl, Hb.
  cbn [fmap option_fmap option_map]. eexists; split; [reflexivity|].
  clear Hb Hl.
  pose proof (frame_dt_first t) as Hdt. revert Hdt.
  generalize (frame_dt t None). intros dt Hdt.
  destruct b as [e bx by_ bvx bvy bw bh bd ox oy lp vxp vyp].
  assert (H1 : bvx * dt == 0) by (rewrite Hdt; ring).
  assert (H2 : bvy * dt == 0) by (rewrite Hdt; ring).
  assert (H3 : dt * dt == 0) by (rewrite Hdt; ring).
  unfold stepBody, collideBottom, collideTop, collideX, integrate.
  destruct bd; cbn.
  - repeat split; reflexivity.
  - split.
    + qcases; split; lra.
    + intros [Hd | (Hx0 & Hx1 & Hy0 & Hy1)]; [discriminate|].
      qcases; split; lra.
Qed.

(** ** Friction isolation *)

(** C8, as stated, fails at a corner: a body that leaves through the left
    wall and the top edge in the same step does not touch the bottom edge,
    and its [vy] is reflected by the top-collision branch. *)
Lemma wall_bounce_at_top_changes_vy :
  ~ (forall dt maxX maxY (b : Body Q),
       dragging b = false ->
       let b1 := integrate dt b in
       let b' := stepBody dt maxX maxY b in
       QMicromega.Qlt_bool (x b1) 0
       || QMicromega.Qlt_bool maxX (x b1 + width b1) = true ->
       y b1 + height b1 <= maxY ->
       y b' + height b' <= maxY ->
       vy b' == vy b1 /\ vx b' == - vx b1 * 0.6).
Proof.
  intros C.
  destruct (C 1 800 600 (body_at 1 1 (-5) (-5)) eq_refl) as [Hvy _];
    [reflexivity | vm_compute; discriminate | vm_compute; discriminate |].
  vm_compute in Hvy. discriminate.
Qed.

(** ** The transform of a dragged icon *)

(** C4, as stated, fails: the frame that follows a pointer-move writes the
    new position of the dragged icon to its element. *)
Lemma frame_moves_dragged_icon :
  ~ (forall (s : State Q) t w h i b b',
       bodies s !! i = Some b -> dragging b = true ->
       bodies (step t w h s) !! i = Some b' ->
       pos_x (style_transform (el b')) == pos_x (style_transform (el b)) /\
       pos_y (style_transform (el b')) == pos_y (style_transform (el b))).
Proof.
  intros C.
  destruct (bodies (dragged_icon Q) !! 0%nat) as [b|] eqn:Hb;
    [|vm_compute in Hb; discriminate].
  assert (Hd : dragging b = true)
    by (vm_compute in Hb; injection Hb as <-; reflexivity).
  destruct (C (dragged_icon Q) 1016.7 800 600 0%nat b (applyTransform b) Hb Hd)
    as [Hx _].
  - rewrite step_lookup, Hb. cbn [fmap option_fmap option_map].
    by rewrite (stepBody_dragging _ _ _ _ Hd).
  - vm_compute in Hb. injection Hb as <-. vm_compute in Hx. discriminate.
Qed.


(** ** Bounces on the bottom edge *)


(** ** After a release at rest *)

(** In exact arithmetic a free body with [vx = 0] keeps [vx = 0], and its
    [x] as long as it is inside the walls. *)
Lemma zero_vx_falls_straight dt maxX maxY (b : Body Q) :
  dragging b = false -> vx b == 0 ->
  let b' := stepBody dt maxX maxY b in
  vx b' == 0 /\
  (0 <= x b -> x b + width b <= maxX -> x b' == x b).
Proof.
  destruct b as [e bx by_ bvx bvy bw bh bd ox oy lp vxp vyp]. cbn.
  intros -> Hvx.
  assert (H1 : bvx * dt == 0) by (rewrite Hvx; ring).
  unfold stepBody, collideBottom, collideTop, collideX, integrate. cbn.
  qcases; split; intros; lra.
Qed.

(** ** Speeds *)

#[local] Arguments Qabs : simpl never.

Lemma Qabs_scaled (e v c : Q) :
  e == v * c -> -1 <= c <= 1 -> Qabs e <= Qabs v.
Proof.
  intros -> [Hlo Hhi]. rewrite Qabs_Qmult.
  assert (Hc : Qabs c <= 1) by (apply Qabs_Qle_condition; split; lra).
  pose proof (Qabs_nonneg v) as Hv.
  apply Qle_trans with (1 * Qabs v).
  - rewrite (Qmult_comm (Qabs v)). by apply Qmult_le_compat_r.
  - rewrite Qmult_1_l. apply Qle_refl.
Qed.

Lemma stepBody_vx_shrinks dt maxX maxY (b : Body Q) :
  Qabs (vx (stepBody dt maxX maxY b)) <= Qabs (vx b).
Proof.
  destruct b as [e bx by_ bvx bvy bw bh bd ox oy lp vxp vyp].
  unfold stepBody, collideBottom, collideTop, collideX, integrate.
  destruct bd; cbn; [apply Qle_refl|].
  qcases;
    first [ apply (Qabs_scaled _ bvx 1); [ring | lra]
          | apply (Qabs_scaled _ bvx (-0.6)); [ring | lra]
          | apply (Qabs_scaled _ bvx 0.98); [ring | lra]
          | apply (Qabs_scaled _ bvx (-0.6 * 0.98)); [ring | lra] ].
Qed.

(** X8.  Collisions never speed a body up.  Over any number of frames the
    horizontal speed does not grow, and in one frame of a free body the
    vertical speed ends at most at the speed gravity brought it to. *)
Theorem collisions_never_speed_up dt maxX maxY (b : Body Q) :
  (forall n, Qabs (vx (frames_of dt maxX maxY n b)) <= Qabs (vx b)) /\
  (dragging b = false ->
   Qabs (vy (stepBody dt maxX maxY b)) <= Qabs (vy b + 0.4 * dt)).
Proof.
  split.
  - induction n as [|n IH]; [apply Qle_refl|].
    change (frames_of dt maxX maxY (S n) b)
      with (stepBody dt maxX maxY (frames_of dt maxX maxY n b)).
    eapply Qle_trans; [apply stepBody_vx_shrinks | exact IH].
  - destruct b as [e bx by_ bvx bvy bw bh bd ox oy lp vxp vyp]. cbn.
    intros ->.
    unfold stepBody, collideBottom, collideTop, collideX, integrate. cbn.
    qcases;
      first [ apply (Qabs_scaled _ (bvy + 0.4 * dt) 1); [ring | lra]
            | apply (Qabs_scaled _ (bvy + 0.4 * dt) (-0.6)); [ring | lra]
            | apply (Qabs_scaled _ (bvy + 0.4 * dt) 0.36); [ring | lra] ].
Qed.

(** ** A viewport smaller than the body *)

(** X9.  In a viewport lower than the body every frame puts a free body at
    [y = innerHeight - height], below zero: the bottom clamp runs after
    the top clamp and wins.  In a viewport narrower than the body, [x]
    ends at 0 or at [innerWidth - width]. *)
Theorem small_viewport_clamps dt maxX maxY (b : Body Q) :
  dragging b = false ->
  let b' := stepBody dt maxX maxY b in
  (maxY < height b -> y b' == maxY - height b /\ y b' < 0) /\
  (maxX < width b -> x b' == 0 \/ x b' == maxX - width b).
Proof.
  destruct b as [e bx by_ bvx bvy bw bh bd ox oy lp vxp vyp]. cbn.
  intros ->.
  unfold stepBody, collideBottom, collideTop, collideX, integrate. cbn.
  split; intros Hsmall.
  - qcases; split; lra.
  - qcases; (left; lra) || (right; lra).
Qed.

(** ** A stored timestamp of zero *)

(** X10.  A stored timestamp of 0 counts as no timestamp: the frame that
    follows a frame delivered at 0 ms is computed as a first frame, with
    no elapsed time. *)
Theorem zero_timestamp_is_no_baseline (s : State Q) l t w h :
  lastTimestamp s = Some l -> l == 0 ->
  step t w h s = step t w h (set_lastTimestamp s None) /\
  frame_dt t (lastTimestamp s) == 0.
Proof.
  intros Hl H0.
  assert (Hb : baseline t (Some l) = t).
  { unfold baseline. cbn. apply Qeq_bool_iff in H0. by rewrite H0. }
  split.
  - unfold step, frame_dt. rewrite Hl, Hb. reflexivity.
  - unfold frame_dt. rewrite Hl, Hb. cbn. field.
Qed.

(** ** [init] *)

(** X1.  [init] makes one body per icon.  With random draws in [0, 1) and a
    viewport at least 80 wide, each body starts free, of size 80 by 80,
    horizontally inside the viewport, entirely above it (its lower side at
    most at 0, its upper side not above -280), with no vertical speed and
    a horizontal speed between -0.5 and 0.5; its element shows that
    position. *)
Theorem init_places_icons_above (innerWidth : Q) randoms i b :
  80 <= innerWidth ->
  Forall (fun r => 0 <= r.1.1 < 1 /\ 0 <= r.1.2 < 1 /\ 0 <= r.2 < 1)
         randoms ->
  bodies (init innerWidth randoms) !! i = Some b ->
  length (bodies (init innerWidth randoms)) = length randoms /\
  dragging b = false /\ width b == 80 /\ height b == 80 /\
  0 <= x b <= innerWidth - width b /\
  -280 <= y b /\ y b + height b <= 0 /\
  -0.5 <= vx b <= 0.5 /\ vy b == 0 /\
  style_transform (el b) = {| pos_x := x b; pos_y := y b |}.
Proof.
  intros Hw Hr Hb. split; [apply length_fmap|].
  unfold init in Hb. simpl in Hb. rewrite list_lookup_fmap in Hb.
  destruct (randoms !! i) as [[[r1 r2] r3]|] eqn:Hi; [|discriminate].
  pose proof (Forall_lookup_1 _ _ _ _ Hr Hi) as (H1 & H2 & H3).
  simpl in H1, H2, H3, Hb. injection Hb as <-. cbn.
  assert (Hx0 : 0 <= r1 * (innerWidth - 80))
    by (apply Qmult_le_0_compat; lra).
  assert (Hx1 : 0 <= (1 - r1) * (innerWidth - 80))
    by (apply Qmult_le_0_compat; lra).
  repeat split; try reflexivity; lra.
Qed.

End Exact.

(** * The script in binary64 arithmetic *)

Section Binary64.
#[local] Open Scope float_scope.

(** C2: the code breaks the invariant.  Two fingers land on the two icons
    one after the other: both bodies have [dragging = true].  Lifting a
    finger releases the second body only; the first stays flagged with no
    active body and no listener left, so that no later move or release
    reaches it. *)
Theorem second_pointer_down_orphans_first_drag :
  exists s2 s3 : State float,
    run (two_icons float) (two_fingers_down float) = Normal s2 /\
    dragging <$> bodies s2 = [true; true] /\
    activeBody s2 = Some 1%nat /\
    run s2 (one_finger_up float) = Normal s3 /\
    dragging <$> bodies s3 = [true; false] /\
    activeBody s3 = None /\ listening s3 = false /\
    (forall e, dispatch s3 (PointerMove e) = Normal s3 /\
               dispatch s3 (PointerUp e) = Normal s3).
Proof.
  set (s2 := after (two_icons float) (two_fingers_down float)).
  set (s3 := after (two_icons float)
               (two_fingers_down float ++ one_finger_up float)).
  assert (Hl : listening s3 = false) by (vm_compute; reflexivity).
  exists s2, s3.
  do 7 (split; [vm_compute; reflexivity|]).
  intros e. cbn [dispatch]. rewrite Hl. split; reflexivity.
Qed.

(** The first frame, as the browser computes it: both icons go from 180
    pixels above the viewport to its top edge, and keep their [x]. *)
Example first_frame_binary64 :
  y <$> bodies (two_icons_init float) = [-180; -180] /\
  y <$> bodies (two_icons float) = [0; 0] /\
  x <$> bodies (two_icons_init float) = [180; 540] /\
  x <$> bodies (two_icons float) = [180; 540].
Proof. repeat split; vm_compute; reflexivity. Qed.

(** The drop of [bounce_peaks_stop_decreasing], as the browser computes
    it. *)
Example resting_bounces_binary64 :
  let drop n :=
    frames_of (lit 1) (lit 800) (lit 600) n
      (body_at (lit 100) (lit 519) (lit 0) (lit 0)) in
  y (drop 4%nat) = 520 /\ y (drop 5%nat) = 520 /\ y (drop 6%nat) = 520 /\
  PrimFloat.ltb (PrimFloat.abs (vy (drop 5%nat)))
                (PrimFloat.abs (vy (drop 6%nat))) = true.
Proof. cbv zeta. repeat split; vm_compute; reflexivity. Qed.

(** C3, as stated, fails in binary64.  The icon parked at
    x = 944.00000000000011 in a viewport of 1024 by 768 is 80 wide and not
    dragged; in the next frame [x + width] rounds to 1024, the right test
    does not fire, and [x] stays above [1024 - 80]. *)
Lemma containment_misses_by_rounding :
  ~ (forall t w h (s : State float) i b',
       bodies (step t w h s) !! i = Some b' ->
       dragging b' = false ->
       PrimFloat.leb (width b') w = true ->
       PrimFloat.leb (height b') h = true ->
       PrimFloat.leb 0 (x b') = true /\
       PrimFloat.leb (x b') (w - width b') = true /\
       PrimFloat.leb 0 (y b') = true /\
       PrimFloat.leb (y b') (h - height b') = true).
Proof.
  intros C.
  match eval vm_compute in
    (bodies (step 1016.7 1024 768 parked_near_right_edge) !! 0%nat) with
  | Some ?b' =>
      destruct (C 1016.7 1024 768 parked_near_right_edge 0%nat b')
        as (_ & Hx & _);
        [vm_compute; reflexivity | reflexivity | reflexivity | reflexivity |]
  end.
  vm_compute in Hx. discriminate.
Qed.


End Binary64.

(** * The theorems at concrete inputs *)

Section Instances.

(** Runs [k] on the body a state holds at index [i]. *)
Ltac with_body s i k :=
  match eval vm_compute in (bodies s !! i) with
  | Some ?b => k b
  end.

(** C7 at an icon pulled out of the viewport, to (-120, 860). *)
Lemma drag_bypass_outside_viewport :
  exists b',
    bodies (step (lit 1016.7) (lit 800) (lit 600) (dragged_outside float))
      !! 0%nat = Some b' /\
    x b' = (-120)%float /\ y b' = 860%float /\
    vx b' = 0%float /\ vy b' = 0%float /\ dragging b' = true.
Proof.
  with_body (dragged_outside float) 0%nat ltac:(fun b =>
    destruct (drag_bypass (lit 1016.7) (lit 800) (lit 600)
                (dragged_outside float) 0 b)
      as (b' & Hb' & Hx & Hy & Hvx & Hvy & Hd));
    [vm_compute; reflexivity | reflexivity |].
  exists b'. rewrite Hx, Hy, Hvx, Hvy, Hd. by repeat split.
Defined.

(** C4 at an icon dragged from (180, 0) to (230, 50): the next frame
    writes the translation to (230, 50). *)
Lemma dragged_icon_transform_written :
  exists b',
    bodies (step (lit 1016.7) (lit 800) (lit 600) (dragged_icon float))
      !! 0%nat = Some b' /\
    dragging b' = true /\
    style_transform (el b') = {| pos_x := 230%float; pos_y := 50%float |}.
Proof.
  with_body (dragged_icon float) 0%nat ltac:(fun b =>
    destruct (frame_writes_every_transform (lit 1016.7) (lit 800) (lit 600)
                (dragged_icon float) 0 b) as (b' & Hb' & _ & Hdrag));
    [vm_compute; reflexivity |].
  exists b'. split; [exact Hb'|]. rewrite (Hdrag eq_refl).
  split; vm_compute; reflexivity.
Defined.

(** C9 at the two icons at rest. *)
Lemma no_target_is_noop_two_icons :
  let e := mouse (lit 300) (lit 300) in
  doDrag e (two_icons float) = Normal (two_icons float) /\
  endDrag e (two_icons float) = Normal (two_icons float) /\
  dispatch (two_icons float) (PointerMove e) = Normal (two_icons float) /\
  dispatch (two_icons float) (PointerUp e) = Normal (two_icons float).
Proof.
  apply (no_target_is_noop (two_icons float) (mouse (lit 300) (lit 300))).
  vm_compute. reflexivity.
Defined.

(** C6: the pointer goes through (10, 10), (15, 12), (25, 20) and is
    released; the launch velocity is (10, 8). *)
Lemma flick_launches_with_last_delta :
  exists s' b',
    run (two_icons float)
      (PointerDown 0 (mouse (lit 10) (lit 10))
       :: [PointerMove (mouse (lit 15) (lit 12))]
       ++ PointerMove (mouse (lit 25) (lit 20))
       :: [] ++ [PointerUp (mouse (lit 25) (lit 20))]) = Normal s' /\
    bodies s' !! 0%nat = Some b' /\ dragging b' = false /\
    vx b' = 10%float /\ vy b' = 8%float.
Proof.
  with_body (two_icons float) 0%nat ltac:(fun b =>
    destruct (launch_velocity_is_last_delta (two_icons float) 0 b
                (mouse (lit 10) (lit 10))
                [PointerMove (mouse (lit 15) (lit 12))]
                (mouse (lit 25) (lit 20)) []
                (mouse (lit 25) (lit 20)))
      as (s' & b' & Hrun & Hb' & Hd & Hvx & Hvy));
    [vm_compute; reflexivity | reflexivity | reflexivity |].
  exists s', b'. rewrite Hvx, Hvy. repeat split; try done.
  all: vm_compute; reflexivity.
Defined.

#[local] Open Scope Q_scope.

(** C8 at a body that crosses the left wall in mid-air: [vx] goes from -5
    to 3 and [vy] is the integrated 0.4. *)
Lemma left_wall_bounce_in_mid_air :
  let b' := stepBody 1 800 600 (body_at 1 300 (-5) 0) in
  vx b' == 3 /\ vy b' == 0.4.
Proof.
  pose proof (friction_only_on_bottom 1 800 600 (body_at 1 300 (-5) 0)
                eq_refl) as H.
  cbv zeta in H. destruct H as [H _].
  destruct (H eq_refl eq_refl eq_refl) as [Hvx Hvy].
  cbv zeta. rewrite Hvx, Hvy. split; reflexivity.
Defined.

(** C1 at a fresh icon, which the first frame moves from (180, -180) to
    (180, 0), and at a body that lies inside the viewport, which stays. *)
Lemma first_frame_fresh_and_inside :
  (exists b',
     bodies (step 1000 800 600 (two_icons_init Q)) !! 0%nat = Some b' /\
     x b' == 180 /\ y b' == 0) /\
  (let s := {| bodies := [body_at 100 100 3 4]; lastTimestamp := None;
               activeBody := None; listening := false |} in
   exists b',
     bodies (step 1000 800 600 s) !! 0%nat = Some b' /\
     x b' == 100 /\ y b' == 100).
Proof.
  split.
  - with_body (two_icons_init Q) 0%nat ltac:(fun b =>
      destruct (first_frame_only_clamps (two_icons_init Q) 1000 800 600
                  0%nat b) as (b' & Hb' & [Hx Hy] & _));
      [reflexivity | vm_compute; reflexivity |].
    exists b'. split; [exact Hb'|].
    split; [rewrite Hx | rewrite Hy]; vm_compute; reflexivity.
  - cbv zeta.
    destruct (first_frame_only_clamps
                {| bodies := [body_at 100 100 3 4]; lastTimestamp := None;
                   activeBody := None; listening := false |}
                1000 800 600 0%nat (body_at 100 100 3 4) eq_refl eq_refl)
      as (b' & Hb' & _ & Hin).
    exists b'. split; [exact Hb'|]. apply Hin. right.
    repeat split; vm_compute; discriminate.
Defined.

(** X1 at the first of the two icons. *)
Lemma first_icon_starts_above :
  exists b, bodies (two_icons_init Q) !! 0%nat = Some b /\
    0 <= x b <= 800 - width b /\ -280 <= y b /\ y b + height b <= 0 /\
    -0.5 <= vx b <= 0.5.
Proof.
  with_body (two_icons_init Q) 0%nat ltac:(fun b =>
    exists b; split; [vm_compute; reflexivity|];
    destruct (init_places_icons_above 800
                [(0.25, 0.5, 0.5); (0.75, 0.5, 0.5)] 0%nat b)
      as (_ & _ & _ & _ & Hx & Hy0 & Hy1 & Hvx & _)).
  - vm_compute. discriminate.
  - repeat (apply Forall_cons; split); try apply Forall_nil;
      repeat split; vm_compute; reflexivity || discriminate.
  - vm_compute. reflexivity.
  - by repeat split.
Defined.

(** X2 at a press, a move, a frame and a release on two fresh icons. *)
Lemma press_move_release_runs :
  exists s : State float,
    run (init (lit 800)
           [(lit 0.25, lit 0.5, lit 0.5); (lit 0.75, lit 0.5, lit 0.5)])
        (press_move_release float) = Normal s /\
    length (bodies s) = 2%nat /\ drag_consistent s.
Proof.
  apply (run_from_init_consistent (N:=float) (lit 800)
           [(lit 0.25, lit 0.5, lit 0.5); (lit 0.75, lit 0.5, lit 0.5)]
           (press_move_release float)).
  repeat (apply Forall_cons; split); try apply Forall_nil; try exact I.
  simpl. lia.
Defined.

(** X3 at the same inputs: the first icon is still 80 by 80. *)
Lemma first_icon_keeps_its_size :
  exists b',
    bodies (after (two_icons float) (press_move_release float)) !! 0%nat
    = Some b' /\
    width b' = 80%float /\ height b' = 80%float.
Proof.
  with_body (two_icons float) 0%nat ltac:(fun b =>
    destruct (size_never_changes (two_icons float)
                (after (two_icons float) (press_move_release float))
                (press_move_release float) 0%nat b)
      as (b' & Hb' & Hw & Hh));
    [vm_compute; reflexivity | vm_compute; reflexivity |].
  exists b'. rewrite Hw, Hh. repeat split; [exact Hb' | ..];
    vm_compute; reflexivity.
Defined.

(** X4 at a pointer-down on the first icon. *)
Lemma press_touches_first_icon_only :
  let s := two_icons float in
  let inp := PointerDown 0 (mouse (lit 200) (lit 40)) in
  let s' := after s [inp] in
  (forall j, target s inp <> Some j -> bodies s' !! j = bodies s !! j) /\
  el <$> bodies s' = el <$> bodies s /\
  lastTimestamp s' = lastTimestamp s.
Proof.
  cbv zeta.
  apply (pointer_events_touch_one_body (two_icons float));
    [reflexivity | vm_compute; reflexivity].
Defined.

(** X5: the first icon, at (180, 0), is grabbed by a finger at (200, 40);
    a second finger comes down and the first goes to (250, 90): the icon is
    at (230, 50), whatever the second touch point and the event's own
    [clientX], [clientY] are. *)
Lemma dragged_icon_follows :
  exists s' b',
    run (two_icons float)
      (PointerDown 0 (touch [finger1])
       :: [AnimationFrame (lit 1016.7) (lit 800) (lit 600)]
       ++ [PointerMove
             {| touches := [ {| pos_x := lit 250; pos_y := lit 90 |};
                             finger2 ];
                clientX := lit 7; clientY := lit 7 |}]) = Normal s' /\
    bodies s' !! 0%nat = Some b' /\ dragging b' = true /\
    x b' = 230%float /\ y b' = 50%float.
Proof.
  with_body (two_icons float) 0%nat ltac:(fun b =>
    pose proof (drag_follows_pointer (two_icons float) 0 b
                  (touch [finger1])
                  [AnimationFrame (lit 1016.7) (lit 800) (lit 600)]
                  {| touches := [ {| pos_x := lit 250; pos_y := lit 90 |};
                                  finger2 ];
                     clientX := lit 7; clientY := lit 7 |}) as H);
    cbv zeta in H.
  destruct H as (s' & b' & Hrun & Hb' & Hd & Hx & Hy);
    [vm_compute; reflexivity | reflexivity |].
  exists s', b'. rewrite Hx, Hy. repeat split; try done.
  all: vm_compute; reflexivity.
Defined.

(** X6 at a frame, a press on the first icon and a move. *)
Lemma one_press_one_drag :
  let inps := [AnimationFrame (lit 1000) (lit 800) (lit 600);
               PointerDown 0 (mouse (lit 200) (lit 40));
               PointerMove (mouse (lit 250) (lit 90))] in
  let s := after (two_icons_init float) inps in
  activeBody s = Some 0%nat.
Proof.
  intros inps s.
  with_body s 0%nat ltac:(fun b =>
    refine (proj2 (single_pointer_one_drag (N:=float) (lit 800)
              [(lit 0.25, lit 0.5, lit 0.5); (lit 0.75, lit 0.5, lit 0.5)]
              inps s _ _ 0%nat 0%nat b b _ _ _ _)));
    vm_compute; reflexivity.
Defined.

#[local] Close Scope Q_scope.

(** C3 at the icon parked next to the right edge. *)
Lemma parked_icon_passes_the_tests :
  exists b',
    bodies (step 1016.7%float 1024%float 768%float parked_near_right_edge)
      !! 0%nat = Some b' /\
    ((x b' <? lit 0)%js = false /\ (y b' <? lit 0)%js = false /\
     (x b' = (1024%float - width b')%js \/
      (x b' + width b' >? 1024%float)%js = false) /\
     (y b' = (768%float - height b')%js \/
      (y b' + height b' >? 768%float)%js = false)).
Proof.
  match eval vm_compute in
    (bodies (step 1016.7%float 1024%float 768%float parked_near_right_edge)
       !! 0%nat) with
  | Some ?b' => exists b'
  end.
  split; [vm_compute; reflexivity|].
  apply (boundary_tests_after_step 1016.7%float 1024%float 768%float
           parked_near_right_edge 0%nat);
    vm_compute; reflexivity.
Defined.



(** X7 at a body thrown to the right from (100, 100): two frames. *)
Lemma two_free_frames :
  let b := body_at (lit 100) (lit 100) (lit 3) (lit 0) in
  let fr n := frames_of (lit 1) (lit 800) (lit 600) n b in
  vx (fr 2%nat) = vx b /\
  forall m, (m < 2)%nat ->
    (vy (fr (S m)) = vy (fr m) + gravity * lit 1 /\
     x (fr (S m)) = x (fr m) + vx b * lit 1 /\
     y (fr (S m)) = y (fr m) + vy (fr (S m)) * lit 1)%js.
Proof.
  cbv zeta.
  apply (free_frames_are_euler_steps (N:=float) (lit 1) (lit 800) (lit 600)
           (body_at (lit 100) (lit 100) (lit 3) (lit 0)) 2);
    [reflexivity|].
  intros m Hm. destruct m as [|[|m]]; [vm_compute; reflexivity.. | lia].
Defined.

#[local] Open Scope Q_scope.

(** X8 at a body that leaves through the top left corner. *)
Lemma corner_bounce_slows_down :
  Qabs (vx (frames_of 1 800 600 3 (body_at 1 1 (-5) (-5)))) <= Qabs (-5) /\
  Qabs (vy (stepBody 1 800 600 (body_at 1 1 (-5) (-5))))
  <= Qabs (-5 + 0.4 * 1).
Proof.
  destruct (collisions_never_speed_up 1 800 600 (body_at 1 1 (-5) (-5)))
    as [H1 H2].
  split; [exact (H1 3%nat) | exact (H2 eq_refl)].
Defined.

(** X9 at a body of 80 by 80 in a viewport of 50 by 50. *)
Lemma body_larger_than_viewport :
  let b' := stepBody 1 50 50 (body_at 10 10 0 0) in
  (y b' == 50 - 80 /\ y b' < 0) /\ (x b' == 0 \/ x b' == 50 - 80).
Proof.
  pose proof (small_viewport_clamps 1 50 50 (body_at 10 10 0 0) eq_refl) as H.
  cbv zeta in H. destruct H as [H1 H2]. cbv zeta.
  split; [apply H1 | apply H2]; reflexivity.
Defined.

(** X10 at the frame that follows a frame delivered at 0 ms. *)
Lemma frame_after_timestamp_zero :
  let s := step 0 800 600 (two_icons_init Q) in
  step 1000 800 600 s = step 1000 800 600 (set_lastTimestamp s None) /\
  frame_dt 1000 (lastTimestamp s) == 0.
Proof.
  cbv zeta.
  apply (zero_timestamp_is_no_baseline
           (step 0 800 600 (two_icons_init Q)) 0 1000 800 600);
    reflexivity.
Defined.

End Instances.
